(** * Smart Knowledge Assistant: ledger, history log, retrieval and ingestion

    A shallow embedding of [utils/history.py], [routers/rag.py],
    [routers/documents.py], [tasks/celery_tasks.py] and
    [utils/exception_handlers.py].

    - Python [str] values are lists of Unicode code points ([list N]).
    - The filesystem and the in-process dictionaries are finite maps; a
      file holds bytes, and the text files are read and written through
      UTF-8 as [open(path, mode, encoding="utf-8")] does it.
    - Functions that touch state are state transformers over [World];
      a raised exception is the [inl] summand of the result.
    - The embedding model, the vector index, the text splitter and
      [json.loads] are collaborators, gathered in the class [Backend]. *)

From Stdlib Require Import ZArith NArith List Lia Bool Decimal DecimalZ DecimalPos DecimalN.
From Stdlib Require Import Ascii String.
From stdpp Require Import base option list gmap.

Local Open Scope Z_scope.

(** ** Python text primitives *)

Module PyText.

Abbreviation pystr := (list N).

(** The content of a file, byte by byte. *)
Abbreviation bytes := (list N).

(** A Rocq string literal read as a Python [str] (one code point per character). *)
Definition lit (s : string) : pystr := map N_of_ascii (list_ascii_of_string s).

Definition LF : N := 10%N.
Definition CR : N := 13%N.

(** [str.isspace] on one code point: the set CPython's [str.strip()] removes. *)
Definition isspace (c : N) : bool :=
  ((9 <=? c) && (c <=? 13) || (28 <=? c) && (c <=? 32)
   || (c =? 133) || (c =? 160) || (c =? 5760)
   || (8192 <=? c) && (c <=? 8202)
   || (c =? 8232) || (c =? 8233) || (c =? 8239) || (c =? 8287) || (c =? 12288))%N.

Fixpoint lstrip (s : pystr) : pystr :=
  match s with
  | c :: s' => if isspace c then lstrip s' else s
  | [] => []
  end.

Definition rstrip (s : pystr) : pystr := rev (lstrip (rev s)).

(** [s.strip()] *)
Definition strip (s : pystr) : pystr := rstrip (lstrip s).

(** Truthiness of a [str]: non-empty. *)
Definition truthy (s : pystr) : bool :=
  match s with [] => false | _ => true end.

(** [c.strip()] used as a condition: the chunk has a non-blank character. *)
Definition nonblank (s : pystr) : bool := truthy (strip s).

(** *** [str(n)] and [int(s)] for integers *)

Fixpoint render_uint (d : uint) : pystr :=
  match d with
  | Nil => []
  | D0 d => 48%N :: render_uint d
  | D1 d => 49%N :: render_uint d
  | D2 d => 50%N :: render_uint d
  | D3 d => 51%N :: render_uint d
  | D4 d => 52%N :: render_uint d
  | D5 d => 53%N :: render_uint d
  | D6 d => 54%N :: render_uint d
  | D7 d => 55%N :: render_uint d
  | D8 d => 56%N :: render_uint d
  | D9 d => 57%N :: render_uint d
  end.

Definition render_int (d : Decimal.int) : pystr :=
  match d with
  | Decimal.Pos u => render_uint u
  | Decimal.Neg u => 45%N :: render_uint u
  end.

(** [str(n)] for a Python [int]. *)
Definition py_str (n : Z) : pystr := render_int (Z.to_int n).

(** The decimal digits [int] accepts come in runs of ten (the ASCII
    digits, the Arabic-Indic digits, and so on).  These are the zeros of
    the runs, from the Unicode 14 character database. *)
Definition decimal_zeros : list N :=
  [48; 1632; 1776; 1984; 2406; 2534; 2662; 2790;
   2918; 3046; 3174; 3302; 3430; 3558; 3664; 3792;
   3872; 4160; 4240; 6112; 6160; 6470; 6608; 6784;
   6800; 6992; 7088; 7232; 7248; 42528; 43216; 43264;
   43472; 43504; 43600; 44016; 65296; 66720; 68912; 69734;
   69872; 69942; 70096; 70384; 70736; 70864; 71248; 71360;
   71472; 71904; 72016; 72784; 73040; 73120; 92768; 92864;
   93008; 120782; 120792; 120802; 120812; 120822; 123200; 123632;
   125264; 130032]%N.

(** The value of a decimal digit. *)
Definition decimal_value (c : N) : option N :=
  (fun z => c - z)%N <$> List.find (fun z => (z <=? c) && (c <? z + 10))%N decimal_zeros.

Definition digit_of (c : N) : option (uint -> uint) :=
  match decimal_value c with
  | Some 0 => Some D0 | Some 1 => Some D1 | Some 2 => Some D2 | Some 3 => Some D3
  | Some 4 => Some D4 | Some 5 => Some D5 | Some 6 => Some D6 | Some 7 => Some D7
  | Some 8 => Some D8 | Some 9 => Some D9
  | _ => None
  end%N.

(** Decimal digits with single underscores allowed between digits
    ([prev] tells whether the previous character was a digit). *)
Fixpoint parse_digits (prev : bool) (s : pystr) : option uint :=
  match s with
  | [] => if prev then Some Nil else None
  | c :: s' =>
      if (c =? 95)%N then
        if prev then parse_digits false s' else None
      else
        match digit_of c with
        | Some k => k <$> parse_digits true s'
        | None => None
        end
  end.

(** [sys.int_info.default_max_str_digits]: [int(s)] and [str(n)] raise
    [ValueError] past that many digits.  Leading zeros count; the sign,
    the underscores and the surrounding white space do not. *)
Definition MAX_STR_DIGITS : Z := 4300.

Definition within_digit_limit (u : uint) : bool :=
  Z.of_nat (nb_digits u) <=? MAX_STR_DIGITS.

Definition limited (u : uint) : option uint :=
  if within_digit_limit u then Some u else None.

(** [int(s)] in base 10: surrounding whitespace, an optional sign, digits.
    [None] stands for [ValueError]. *)
Definition py_int (s : pystr) : option Z :=
  match strip s with
  | 45%N :: r => (fun u => Z.of_int (Decimal.Neg u)) <$> (parse_digits false r ≫= limited)
  | 43%N :: r => (fun u => Z.of_int (Decimal.Pos u)) <$> (parse_digits false r ≫= limited)
  | r => (fun u => Z.of_int (Decimal.Pos u)) <$> (parse_digits false r ≫= limited)
  end.

(** [str(n)] where [n] can be any integer: [None] stands for the
    [ValueError] raised past the digit limit. *)
Definition py_str_limited (n : Z) : option pystr :=
  let digits := match Z.to_int n with Decimal.Pos u => u | Decimal.Neg u => u end in
  if within_digit_limit digits then Some (py_str n) else None.

(** [int(val or 0)]: an empty [val] is falsy, so [int(0)] is taken. *)
Definition int_or_zero (val : pystr) : option Z :=
  if truthy val then py_int val else Some 0.

(** *** [sep.join(parts)] and [s.split(sep)] *)

Fixpoint join (sep : pystr) (parts : list pystr) : pystr :=
  match parts with
  | [] => []
  | [p] => p
  | p :: ps => p ++ sep ++ join sep ps
  end.

Fixpoint is_prefix (p s : pystr) : bool :=
  match p, s with
  | [], _ => true
  | _ :: _, [] => false
  | a :: p', b :: s' => (a =? b)%N && is_prefix p' s'
  end.

Definition cons_head (c : N) (parts : list pystr) : list pystr :=
  match parts with
  | [] => [[c]]
  | p :: ps => (c :: p) :: ps
  end.

(** Left-to-right scan for non-overlapping occurrences of [sep];
    [skip] counts the characters of a matched separator still to pass. *)
Fixpoint split_go (sep : pystr) (skip : nat) (s : pystr) : list pystr :=
  match s with
  | [] => [[]]
  | c :: s' =>
      match skip with
      | S k => split_go sep k s'
      | O =>
          if is_prefix sep s
          then [] :: split_go sep (length sep - 1) s'
          else cons_head c (split_go sep 0 s')
      end
  end.

(** [s.split(sep)] for a non-empty separator. *)
Definition split (sep s : pystr) : list pystr := split_go sep 0 s.

(** *** Text-mode reads *)

(** Universal-newline translation done by [open(path, "r")]:
    ["\r\n"] and a lone ["\r"] both become ["\n"]. *)
Fixpoint universal_newlines (s : pystr) : pystr :=
  match s with
  | [] => []
  | c :: s' =>
      if (c =? CR)%N then
        match s' with
        | c' :: s'' => if (c' =? LF)%N then LF :: universal_newlines s''
                       else LF :: universal_newlines s'
        | [] => [LF]
        end
      else c :: universal_newlines s'
  end.

(** Lines of an already translated text, each with its terminator. *)
Fixpoint lines_of (s : pystr) : list pystr :=
  match s with
  | [] => []
  | c :: s' =>
      if (c =? LF)%N then [LF] :: lines_of s'
      else cons_head c (lines_of s')
  end.

(** [f.readlines()] on the decoded text of a file opened in text mode. *)
Definition readlines (raw : pystr) : list pystr := lines_of (universal_newlines raw).

(** [f.read()] on the decoded text of a file opened in text mode. *)
Definition read_text (raw : pystr) : pystr := universal_newlines raw.

(** *** UTF-8, as [open(path, mode, encoding="utf-8")] applies it *)

(** The bytes of one code point.  [None] stands for [UnicodeEncodeError]:
    a [str] can hold a surrogate, UTF-8 cannot. *)
Definition utf8_encode_cp (c : N) : option bytes :=
  (if c <? 128 then Some [c]
   else if c <? 2048 then Some [192 + c / 64; 128 + c mod 64]
   else if c <? 65536 then
     if (55296 <=? c) && (c <=? 57343) then None
     else Some [224 + c / 4096; 128 + (c / 64) mod 64; 128 + c mod 64]
   else if c <? 1114112 then
     Some [240 + c / 262144; 128 + (c / 4096) mod 64; 128 + (c / 64) mod 64;
           128 + c mod 64]
   else None)%N.

(** What [f.write(s)] hands to the file. *)
Fixpoint utf8_encode (s : pystr) : option bytes :=
  match s with
  | [] => Some []
  | c :: s' =>
      match utf8_encode_cp c, utf8_encode s' with
      | Some b, Some bs => Some (b ++ bs)
      | _, _ => None
      end
  end.

Definition continuation (b : N) : bool := ((128 <=? b) && (b <? 192))%N.

(** A decoded value is kept when it needed the bytes it came in (no
    overlong form), is no surrogate and is a code point. *)
Definition scalar (low c : N) : bool :=
  ((low <=? c) && (c <? 1114112) && negb ((55296 <=? c) && (c <=? 57343)))%N.

(** The strict decoder, one byte at a time.  [pending] is [None] between
    characters; inside a sequence it holds the number of continuation
    bytes wanted after the next one, the bits read so far and the least
    code point a sequence of that length may encode. *)
Fixpoint utf8_go (pending : option (nat * N * N)) (bs : bytes) : option pystr :=
  match bs with
  | [] => match pending with None => Some [] | Some _ => None end
  | b :: bs' =>
      match pending with
      | None =>
          (if b <? 128 then cons b <$> utf8_go None bs'
           else if (192 <=? b) && (b <? 224) then utf8_go (Some (0%nat, b - 192, 128)) bs'
           else if (224 <=? b) && (b <? 240) then utf8_go (Some (1%nat, b - 224, 2048)) bs'
           else if (240 <=? b) && (b <? 248) then utf8_go (Some (2%nat, b - 240, 65536)) bs'
           else None)%N
      | Some (more, acc, low) =>
          if continuation b then
            let acc := (acc * 64 + (b - 128))%N in
            match more with
            | O => if scalar low acc then cons acc <$> utf8_go None bs' else None
            | S more' => utf8_go (Some (more', acc, low)) bs'
            end
          else None
      end
  end.

(** The text of a file's bytes; [None] stands for [UnicodeDecodeError]. *)
Definition utf8_decode (bs : bytes) : option pystr := utf8_go None bs.

End PyText.

(** ** Shared state, exceptions and collaborators *)

Module Core.
Import PyText.

Inductive Exn :=
| HTTPException (status_code : Z) (detail : pystr)
| ValueError (msg : string)
| UnicodeDecodeError
| UnicodeEncodeError
| FileNotFoundError
| OSError (msg : string)
| RuntimeError (msg : string).

(** What [json.loads(line)] comes to: a value, the [JSONDecodeError] of
    a malformed text, or another exception ([RecursionError] on deep
    nesting, [ValueError] on an integer past the digit limit). *)
Inductive Loaded (J : Type) :=
| Parsed (value : J)
| JSONDecodeError
| LoadFailed (e : Exn).

Arguments Parsed {J} value.
Arguments JSONDecodeError {J}.
Arguments LoadFailed {J} e.

(** The pluggable collaborators: embedding provider, vector index,
    text splitter, PDF text extraction and the JSON reader. *)
Class Backend := {
  Index : Type;
  Vec : Type;
  Json : Type;
  (** [json.loads(line)] *)
  json_loads : pystr -> Loaded Json;
  (** [index.d] *)
  index_d : Index -> Z;
  (** [_make_query_vector(question, target_dim)] *)
  make_query_vector : pystr -> Z -> Exn + Vec;
  (** [index.search(vec, top_k)], keeping the row [I[0]] of positions. *)
  index_search : Index -> Vec -> Z -> Exn + list Z;
  (** [PdfReader(path)] with the page texts concatenated. *)
  pdf_extract : list N -> Exn + pystr;
  (** [CharacterTextSplitter(chunk_size=500, chunk_overlap=50).split_text] *)
  split_text : pystr -> Exn + list pystr;
  (** [HuggingFaceEmbeddings(...).embed_documents] *)
  embed_documents : list pystr -> Exn + list Vec;
  (** [faiss.IndexFlatL2(len(vectors[0]))] followed by [index.add(vectors)] *)
  build_index : list Vec -> Exn + Index
}.

Inductive Level := INFO | WARNING | ERROR.

(** Observable actions, in the order they happen. *)
Inductive Event :=
| EvLog (lvl : Level) (name : string)
| EvIndexProbe (doc_id : Z)
| EvIndexRead (doc_id : Z)
| EvEmbed (question : pystr)
| EvSearch (doc_id : Z)
| EvChunksRead (doc_id : Z).

(** A document record of [fake_documents_db]. *)
Record DocRecord := {
  d_id : Z;
  d_filename : pystr;
  d_owner_id : Z;
  d_status : string;
  d_error : option pystr
}.

(** Keys of the per-user-per-day files and of [_DAILY_CACHE]:
    the user id and the UTC day. *)
Abbreviation ukey := (Z * N)%type.

Record World `{Backend} := {
  (** [STATE_DIR/history/<user>/<day>.jsonl] *)
  history_files : gmap ukey bytes;
  (** [STATE_DIR/usage/<day>_<user>.count] *)
  usage_files : gmap ukey bytes;
  (** [_DAILY_CACHE] *)
  daily_cache : gmap ukey Z;
  (** [FAISS_INDEX_PATH/<doc>.index] *)
  index_files : gmap Z Index;
  (** [FAISS_INDEX_PATH/<doc>_chunks.txt] *)
  chunk_files : gmap Z bytes;
  (** [uploads/...], by path *)
  upload_files : gmap pystr bytes;
  (** [fake_documents_db] and [doc_id_counter] *)
  documents_db : gmap Z DocRecord;
  doc_id_counter : Z;
  (** tasks handed to the worker by [process_document_task.delay] *)
  task_queue : list (Z * pystr);
  trace : list Event
}.

Section Monad.
Context `{Backend}.

Definition M (A : Type) : Type := World -> (Exn + A) * World.

Definition ret {A} (a : A) : M A := fun w => (inr a, w).
Definition raise {A} (e : Exn) : M A := fun w => (inl e, w).
Definition bind {A B} (c : M A) (k : A -> M B) : M B :=
  fun w => match c w with
           | (inr a, w') => k a w'
           | (inl e, w') => (inl e, w')
           end.
Definition lift {A} (r : Exn + A) : M A := fun w => (r, w).

(** A fallible step of the Python runtime: [None] raises [e]. *)
Definition or_raise {A} (e : Exn) (o : option A) : M A :=
  fun w => (match o with Some a => inr a | None => inl e end, w).
Definition get : M World := fun w => (inr w, w).

Definition emit (e : Event) : M unit :=
  fun w => (inr tt,
            {| history_files := history_files w; usage_files := usage_files w;
               daily_cache := daily_cache w; index_files := index_files w;
               chunk_files := chunk_files w; upload_files := upload_files w;
               documents_db := documents_db w; doc_id_counter := doc_id_counter w;
               task_queue := task_queue w; trace := trace w ++ [e] |}).

Definition set_history (k : ukey) (raw : bytes) : M unit :=
  fun w => (inr tt,
            {| history_files := <[k := raw]> (history_files w); usage_files := usage_files w;
               daily_cache := daily_cache w; index_files := index_files w;
               chunk_files := chunk_files w; upload_files := upload_files w;
               documents_db := documents_db w; doc_id_counter := doc_id_counter w;
               task_queue := task_queue w; trace := trace w |}).

Definition set_usage (k : ukey) (raw : bytes) : M unit :=
  fun w => (inr tt,
            {| history_files := history_files w; usage_files := <[k := raw]> (usage_files w);
               daily_cache := daily_cache w; index_files := index_files w;
               chunk_files := chunk_files w; upload_files := upload_files w;
               documents_db := documents_db w; doc_id_counter := doc_id_counter w;
               task_queue := task_queue w; trace := trace w |}).

Definition set_cache (k : ukey) (n : Z) : M unit :=
  fun w => (inr tt,
            {| history_files := history_files w; usage_files := usage_files w;
               daily_cache := <[k := n]> (daily_cache w); index_files := index_files w;
               chunk_files := chunk_files w; upload_files := upload_files w;
               documents_db := documents_db w; doc_id_counter := doc_id_counter w;
               task_queue := task_queue w; trace := trace w |}).

Definition set_index (doc : Z) (ix : Index) : M unit :=
  fun w => (inr tt,
            {| history_files := history_files w; usage_files := usage_files w;
               daily_cache := daily_cache w; index_files := <[doc := ix]> (index_files w);
               chunk_files := chunk_files w; upload_files := upload_files w;
               documents_db := documents_db w; doc_id_counter := doc_id_counter w;
               task_queue := task_queue w; trace := trace w |}).

Definition set_chunks (doc : Z) (raw : bytes) : M unit :=
  fun w => (inr tt,
            {| history_files := history_files w; usage_files := usage_files w;
               daily_cache := daily_cache w; index_files := index_files w;
               chunk_files := <[doc := raw]> (chunk_files w); upload_files := upload_files w;
               documents_db := documents_db w; doc_id_counter := doc_id_counter w;
               task_queue := task_queue w; trace := trace w |}).

Definition set_upload (path : pystr) (content : bytes) : M unit :=
  fun w => (inr tt,
            {| history_files := history_files w; usage_files := usage_files w;
               daily_cache := daily_cache w; index_files := index_files w;
               chunk_files := chunk_files w;
               upload_files := <[path := content]> (upload_files w);
               documents_db := documents_db w; doc_id_counter := doc_id_counter w;
               task_queue := task_queue w; trace := trace w |}).

Definition set_document (doc : Z) (r : DocRecord) : M unit :=
  fun w => (inr tt,
            {| history_files := history_files w; usage_files := usage_files w;
               daily_cache := daily_cache w; index_files := index_files w;
               chunk_files := chunk_files w; upload_files := upload_files w;
               documents_db := <[doc := r]> (documents_db w);
               doc_id_counter := doc_id_counter w;
               task_queue := task_queue w; trace := trace w |}).

Definition set_counter (n : Z) : M unit :=
  fun w => (inr tt,
            {| history_files := history_files w; usage_files := usage_files w;
               daily_cache := daily_cache w; index_files := index_files w;
               chunk_files := chunk_files w; upload_files := upload_files w;
               documents_db := documents_db w; doc_id_counter := n;
               task_queue := task_queue w; trace := trace w |}).

Definition set_queue (q : list (Z * pystr)) : M unit :=
  fun w => (inr tt,
            {| history_files := history_files w; usage_files := usage_files w;
               daily_cache := daily_cache w; index_files := index_files w;
               chunk_files := chunk_files w; upload_files := upload_files w;
               documents_db := documents_db w; doc_id_counter := doc_id_counter w;
               task_queue := q; trace := trace w |}).

(** [try: body except Exception: handler] *)
Definition try_except {A} (body : M A) (handler : Exn -> M A) : M A :=
  fun w => match body w with
           | (inr a, w') => (inr a, w')
           | (inl e, w') => handler e w'
           end.

End Monad.

Declare Scope py_scope.
Notation "x <~ c ;; k" := (bind c (fun x => k))
  (at level 100, c at next level, right associativity) : py_scope.
Notation "c ;;; k" := (bind c (fun _ => k))
  (at level 100, right associativity) : py_scope.

End Core.

(** ** [utils/history.py]: usage ledger and history log *)

Module Ledger.
Import PyText Core.
Local Open Scope py_scope.

(** The dictionary built by [ask_question], with the two keys that
    [append_history_entry] adds.  Key order in the serialised record is
    the insertion order of that dictionary. *)
Record Entry := {
  e_user_id : Z;
  e_doc_id : Z;
  e_question : pystr;
  e_answer : pystr;
  e_context_preview : pystr;
  e_top_k : Z;
  e_chunk_indices : list Z;
  e_id : option pystr;
  e_timestamp : option pystr
}.

Definition hex_digit (n : N) : N := (if n <? 10 then 48 + n else 87 + n)%N.

(** One character of a JSON string under [ensure_ascii=False]. *)
Definition json_escape (c : N) : pystr :=
  (if c =? 34 then [92; 34]
   else if c =? 92 then [92; 92]
   else if c =? 10 then [92; 110]
   else if c =? 13 then [92; 114]
   else if c =? 9 then [92; 116]
   else if c =? 8 then [92; 98]
   else if c =? 12 then [92; 102]
   else if c <? 32 then [92; 117; 48; 48; hex_digit (c / 16); hex_digit (c mod 16)]
   else [c])%N.

Definition json_str (s : pystr) : pystr :=
  34%N :: concat (map json_escape s) ++ [34%N].

Definition json_opt_str (o : option pystr) : pystr :=
  match o with Some s => json_str s | None => lit "null" end.

Definition json_int_list (l : list Z) : pystr :=
  lit "[" ++ join (lit ", ") (map py_str l) ++ lit "]".

Definition json_key (k : string) : pystr := 34%N :: lit k ++ 34%N :: lit ": ".

(** [json.dumps(entry, ensure_ascii=False)].  The integers of an entry
    come out of [int(...)], of request validation and of the index
    search, so [str] accepts them. *)
Definition json_dumps (e : Entry) : pystr :=
  lit "{" ++ json_key "user_id" ++ py_str (e_user_id e)
  ++ lit ", " ++ json_key "doc_id" ++ py_str (e_doc_id e)
  ++ lit ", " ++ json_key "question" ++ json_str (e_question e)
  ++ lit ", " ++ json_key "answer" ++ json_str (e_answer e)
  ++ lit ", " ++ json_key "context_preview" ++ json_str (e_context_preview e)
  ++ lit ", " ++ json_key "top_k" ++ py_str (e_top_k e)
  ++ lit ", " ++ json_key "chunk_indices" ++ json_int_list (e_chunk_indices e)
  ++ lit ", " ++ json_key "id" ++ json_opt_str (e_id e)
  ++ lit ", " ++ json_key "timestamp" ++ json_opt_str (e_timestamp e)
  ++ lit "}".

Section WithBackend.
Context `{Backend}.

(** [_read_usage]: the [try] body may raise [UnicodeDecodeError] in
    [f.read()] and [ValueError] in [int(...)]; the handler answers 0. *)
Definition _read_usage (user_id : Z) (for_date : N) : M Z :=
  w <~ get ;;
  match usage_files w !! (user_id, for_date) with
  | None => ret 0
  | Some raw =>
      try_except
        (text <~ or_raise UnicodeDecodeError (utf8_decode raw) ;;
         let val := strip (read_text text) in
         or_raise (ValueError "invalid literal for int() with base 10") (int_or_zero val))
        (fun _ => ret 0)
  end.

(** [_inc_usage], run by one process on its own.  [open(path, "a+")]
    creates the file; [f.truncate(0)] empties it at once; the text
    handed to [f.write] reaches the file when the [with] block closes
    it, so an exception raised in between leaves the file empty. *)
Definition _inc_usage (user_id : Z) (for_date : N) : M unit :=
  w <~ get ;;
  let raw := default [] (usage_files w !! (user_id, for_date)) in
  set_usage (user_id, for_date) raw ;;;
  text <~ or_raise UnicodeDecodeError (utf8_decode raw) ;;
  let val := strip (read_text text) in
  count <~ or_raise (ValueError "invalid literal for int() with base 10")
             (int_or_zero val) ;;
  let count := count + 1 in
  set_usage (user_id, for_date) [] ;;;
  digits <~ or_raise (ValueError "Exceeds the limit (4300 digits) for integer string conversion")
              (py_str_limited count) ;;
  written <~ or_raise UnicodeEncodeError (utf8_encode digits) ;;
  set_usage (user_id, for_date) written.

Definition with_id_and_timestamp (fresh_uuid now_stamp : pystr) (entry : Entry) : Entry :=
  let entry_id :=
    match e_id entry with
    | Some i => if truthy i then i else fresh_uuid
    | None => fresh_uuid
    end in
  {| e_user_id := e_user_id entry; e_doc_id := e_doc_id entry;
     e_question := e_question entry; e_answer := e_answer entry;
     e_context_preview := e_context_preview entry; e_top_k := e_top_k entry;
     e_chunk_indices := e_chunk_indices entry;
     e_id := Some entry_id;
     e_timestamp := match e_timestamp entry with
                    | Some t => Some t
                    | None => Some now_stamp
                    end |}.

(** [append_history_entry]; [today] is [_today_utc()], [fresh_uuid] is
    [str(uuid.uuid4())] and [now_stamp] the formatted [utcnow()]. *)
Definition append_history_entry (today : N) (fresh_uuid now_stamp : pystr)
    (user_id : Z) (entry : Entry) : M pystr :=
  let entry := with_id_and_timestamp fresh_uuid now_stamp entry in
  let entry_id := default fresh_uuid (e_id entry) in
  w <~ get ;;
  let old := default [] (history_files w !! (user_id, today)) in
  set_history (user_id, today) old ;;;
  line <~ or_raise UnicodeEncodeError (utf8_encode (json_dumps entry ++ [LF])) ;;
  set_history (user_id, today) (old ++ line) ;;;
  w <~ get ;;
  set_cache (user_id, today) (default 0 (daily_cache w !! (user_id, today)) + 1) ;;;
  _inc_usage user_id today ;;;
  ret entry_id.

(** [_read_all_lines]: [f.readlines()] raises [UnicodeDecodeError] on a
    file that is not UTF-8 all through. *)
Definition _read_all_lines (w : World) (k : ukey) : Exn + list pystr :=
  match history_files w !! k with
  | None => inr []
  | Some raw =>
      match utf8_decode raw with
      | Some text => inr (readlines text)
      | None => inl UnicodeDecodeError
      end
  end.

(** The body of the [for idx, line in enumerate(rev)] loop: the [except]
    clause catches [json.JSONDecodeError] and nothing else. *)
Fixpoint list_loop (offset limit idx : Z) (items : list Json) (rev_lines : list pystr)
    : Exn + list Json :=
  match rev_lines with
  | [] => inr items
  | line :: rest =>
      if idx <? offset then list_loop offset limit (idx + 1) items rest
      else if Z.of_nat (length items) >=? limit then inr items
      else match json_loads line with
           | Parsed j => list_loop offset limit (idx + 1) (items ++ [j]) rest
           | JSONDecodeError => list_loop offset limit (idx + 1) items rest
           | LoadFailed e => inl e
           end
  end.

(** [list_history]: the items, the total and the resolved day. *)
Definition list_history (w : World) (today : N) (user_id : Z) (for_date : option N)
    (offset limit : Z) : Exn + list Json * Z * N :=
  let day := default today for_date in
  match _read_all_lines w (user_id, day) with
  | inl e => inl e
  | inr lines =>
      let total := Z.of_nat (length lines) in
      match list_loop offset limit 0 [] (rev lines) with
      | inl e => inl e
      | inr items => inr (items, total, day)
      end
  end.

(** [count_today] *)
Definition count_today (today : N) (user_id : Z) : M Z :=
  w <~ get ;;
  lines <~ lift (_read_all_lines w (user_id, today)) ;;
  let file_count := Z.of_nat (length lines) in
  let cached := default 0 (daily_cache w !! (user_id, today)) in
  usage <~ _read_usage user_id today ;;
  ret (Z.max (Z.max file_count cached) usage).

Definition limit_detail (daily_limit : Z) : pystr :=
  lit "Daily question limit reached (" ++ py_str daily_limit
  ++ lit "). Resets at UTC midnight.".

(** [enforce_daily_limit] *)
Definition enforce_daily_limit (today : N) (user_id daily_limit : Z) : M unit :=
  used <~ count_today today user_id ;;
  if used >=? daily_limit then
    emit (EvLog WARNING "daily_limit_exceeded") ;;;
    raise (HTTPException 429 (limit_detail daily_limit))
  else ret tt.

End WithBackend.
End Ledger.

(** ** [routers/rag.py] and [utils/exception_handlers.py]: retrieval *)

Module Rag.
Import PyText Core Ledger.
Local Open Scope py_scope.

(** The [data] field of an [APIResponse]. *)
Inductive Payload :=
| PNull
| PEmptyList
| PAnswer (answer : pystr) (context : list pystr)
| PDocument (doc : DocRecord).

Record Response := {
  r_data : Payload;
  r_message : pystr;
  r_status_code : Z
}.

(** [api_response] *)
Definition api_response (data : Payload) (message : pystr) (status_code : Z) : Response :=
  {| r_data := data; r_message := message; r_status_code := status_code |}.

(** The separator between chunks in [<doc>_chunks.txt]. *)
Definition CHUNK_SEP : pystr := [10; 45; 45; 45; 10]%N.

(** What [get_chunks_for_doc] makes of the text read from the chunk file. *)
Definition chunks_of_text (text : pystr) : list pystr :=
  let content := strip (read_text text) in
  if truthy content
  then filter (fun c => nonblank c = true) (split CHUNK_SEP content)
  else [].

(** [get_chunks_for_doc] applied to the chunk file ([None] when the file
    does not exist); [f.read()] raises [UnicodeDecodeError] on bytes
    that are not UTF-8. *)
Definition chunks_of_file (file : option bytes) : Exn + list pystr :=
  match file with
  | None => inr []
  | Some raw =>
      match utf8_decode raw with
      | Some text => inr (chunks_of_text text)
      | None => inl UnicodeDecodeError
      end
  end.

(** [query_local_llm] *)
Definition query_local_llm (question context : pystr) : pystr :=
  let preview :=
    if truthy context
    then map (fun c => if (c =? LF)%N then 32%N else c) (take 200 context)
    else [] in
  lit "This is a stubbed answer for: '" ++ question
  ++ lit "'. Context preview: '" ++ preview ++ lit "...'".

(** [[chunks[i] for i in I[0] if 0 <= i < len(chunks)]] *)
Definition select_chunks (chunks : list pystr) (positions : list Z) : list pystr :=
  flat_map (fun i =>
              if (0 <=? i) && (i <? Z.of_nat (length chunks))
              then option_list (chunks !! Z.to_nat i)
              else []) positions.

Section WithBackend.
Context `{Backend}.

(** [load_faiss_index] *)
Definition load_faiss_index (doc_id : Z) : M Index :=
  emit (EvIndexProbe doc_id) ;;;
  w <~ get ;;
  match index_files w !! doc_id with
  | None => raise (HTTPException 404 (lit "Knowledge base not found"))
  | Some ix => emit (EvIndexRead doc_id) ;;; ret ix
  end.

(** [get_chunks_for_doc] *)
Definition get_chunks_for_doc (doc_id : Z) : M (list pystr) :=
  emit (EvChunksRead doc_id) ;;;
  w <~ get ;;
  lift (chunks_of_file (chunk_files w !! doc_id)).

(** [get_relevant_context] with the default [top_k=3] *)
Definition get_relevant_context (question : pystr) (doc_id : Z)
    : M (list pystr * list Z) :=
  index <~ load_faiss_index doc_id ;;
  let dim := index_d index in
  emit (EvEmbed question) ;;;
  question_vec <~ lift (make_query_vector question dim) ;;
  emit (EvSearch doc_id) ;;;
  positions <~ lift (index_search index question_vec 3) ;;
  chunks <~ get_chunks_for_doc doc_id ;;
  ret (select_chunks chunks positions, positions).

(** [ask_question]; [daily_limit] is the value read from
    [FREE_DAILY_QUESTION_LIMIT].  [hash_text(question)] encodes the
    question before hashing it, and the hash only goes to the log. *)
Definition ask_question (today : N) (fresh_uuid now_stamp : pystr) (daily_limit : Z)
    (doc_id : Z) (question : pystr) (user_id : Z) : M Response :=
  enforce_daily_limit today user_id daily_limit ;;;
  or_raise UnicodeEncodeError (utf8_encode question) ;;;
  r <~ get_relevant_context question doc_id ;;
  let '(context_chunks, indices) := r in
  emit (EvLog INFO "retrieval_done") ;;;
  match context_chunks with
  | [] => ret (api_response PEmptyList (lit "No relevant context found.") 404)
  | _ :: _ =>
      let context := join [LF] context_chunks in
      let answer := query_local_llm question context in
      emit (EvLog INFO "answer_generated") ;;;
      let entry :=
        {| e_user_id := user_id; e_doc_id := doc_id; e_question := question;
           e_answer := answer; e_context_preview := take 300 context;
           e_top_k := 3; e_chunk_indices := indices;
           e_id := None; e_timestamp := None |} in
      append_history_entry today fresh_uuid now_stamp user_id entry ;;;
      ret (api_response (PAnswer answer context_chunks)
             (lit "Answer generated successfully.") 200)
  end.

(** The handlers installed by [install_exception_handlers]. *)
Definition exception_handler (e : Exn) : M Response :=
  match e with
  | HTTPException status_code detail =>
      emit (EvLog WARNING "http_exception") ;;;
      ret (api_response PNull (if truthy detail then detail else lit "HTTP error")
             status_code)
  | _ =>
      emit (EvLog ERROR "unhandled_exception") ;;;
      ret (api_response PNull (lit "Internal server error") 500)
  end.

(** [POST /rag/ask] as the client sees it. *)
Definition post_ask (today : N) (fresh_uuid now_stamp : pystr) (daily_limit : Z)
    (doc_id : Z) (question : pystr) (user_id : Z) : M Response :=
  try_except (ask_question today fresh_uuid now_stamp daily_limit doc_id question user_id)
             exception_handler.

End WithBackend.
End Rag.

(** ** [tasks/celery_tasks.py] and [routers/documents.py]: ingestion *)

Module Ingest.
Import PyText Core Rag.
Local Open Scope py_scope.

(** [str.lower()] on the ASCII letters, which is all the extension test needs. *)
Definition lower (s : pystr) : pystr :=
  map (fun c => if (65 <=? c) && (c <=? 90) then c + 32 else c)%N s.

(** [name.split(".")[-1].lower()] *)
Definition extension (name : pystr) : pystr :=
  lower (List.last (split [46%N] name) []).

Definition pystr_eqb (a b : pystr) : bool := bool_decide (a = b).

Definition SUPPORTED_FORMATS : list pystr := [lit "pdf"; lit "txt"; lit "md"].

Definition allowed_mimes : list pystr :=
  [lit "application/pdf"; lit "text/plain"; lit "text/markdown"; lit "text/plain"].

(** Limits of the file system under [uploads/] (Linux): bytes of one
    name, bytes of a whole path with its terminator. *)
Definition NAME_MAX : Z := 255.
Definition PATH_MAX : Z := 4096.

(** [os.fsencode], which [open] applies to its path: UTF-8 with the
    [surrogateescape] error handler. *)
Definition fsencode_cp (c : N) : option bytes :=
  (if (56448 <=? c) && (c <=? 56575) then Some [c - 56320] else utf8_encode_cp c)%N.

Fixpoint fsencode (s : pystr) : option bytes :=
  match s with
  | [] => Some []
  | c :: s' =>
      match fsencode_cp c, fsencode s' with
      | Some b, Some bs => Some (b ++ bs)
      | _, _ => None
      end
  end.

(** The exception [open("uploads/" + name, "wb")] raises, if any.  The
    directory [uploads] holds regular files only, so a name with a
    directory part cannot be opened. *)
Definition open_upload (files : gmap pystr bytes) (name : pystr) : option Exn :=
  match fsencode (lit "uploads/" ++ name) with
  | None => Some UnicodeEncodeError
  | Some raw =>
      if existsb (N.eqb 0) raw then Some (ValueError "embedded null byte")
      else if PATH_MAX <=? Z.of_nat (length raw) then Some (OSError "File name too long")
      else
        let first := hd [] (split [47%N] name) in
        if NAME_MAX <? Z.of_nat (length (default [] (fsencode first)))
        then Some (OSError "File name too long")
        else if existsb (N.eqb 47) name then
          match files !! (lit "uploads/" ++ first) with
          | Some _ => Some (OSError "Not a directory")
          | None => Some FileNotFoundError
          end
        else None
  end.

Section WithBackend.
Context `{Backend}.

(** [parse_document] *)
Definition parse_document (file_path : pystr) : M pystr :=
  let ext := extension file_path in
  w <~ get ;;
  if pystr_eqb ext (lit "pdf") then
    match upload_files w !! file_path with
    | None => raise FileNotFoundError
    | Some content => lift (pdf_extract content)
    end
  else if existsb (pystr_eqb ext) [lit "txt"; lit "md"] then
    match upload_files w !! file_path with
    | None => raise FileNotFoundError
    | Some content =>
        text <~ or_raise UnicodeDecodeError (utf8_decode content) ;;
        ret (read_text text)
    end
  else raise (ValueError "Unsupported file format").

(** [process_document_task]; [open(chunks_path, "w")] empties the chunk
    file before [f.write] encodes the text. *)
Definition process_document_task (doc_id : Z) (file_path : pystr) : M bool :=
  try_except
    (emit (EvLog INFO "task_started") ;;;
     text <~ parse_document file_path ;;
     emit (EvLog INFO "parsed_document") ;;;
     chunks <~ lift (split_text text) ;;
     emit (EvLog INFO "chunked_document") ;;;
     set_chunks doc_id [] ;;;
     written <~ or_raise UnicodeEncodeError (utf8_encode (join CHUNK_SEP chunks)) ;;
     set_chunks doc_id written ;;;
     match chunks with
     | [] => raise (ValueError "No text extracted from document")
     | _ :: _ =>
         vectors <~ lift (embed_documents chunks) ;;
         emit (EvLog INFO "embedded_chunks") ;;;
         index <~ lift (build_index vectors) ;;
         emit (EvLog INFO "faiss_index_built") ;;;
         set_index doc_id index ;;;
         emit (EvLog INFO "task_completed") ;;;
         ret true
     end)
    (fun _ => emit (EvLog ERROR "task_failed") ;;; ret false).

(** [validate_file_extension] *)
Definition validate_file_extension (filename : pystr) : M pystr :=
  let ext := extension filename in
  if existsb (pystr_eqb ext) SUPPORTED_FORMATS then ret ext
  else
    emit (EvLog WARNING "upload_unsupported_extension") ;;;
    raise (HTTPException 400 (lit "Unsupported file format")).

(** [validate_file_upload] *)
Definition validate_file_upload (filename : pystr) (content_type : option pystr)
    : M pystr :=
  ext <~ validate_file_extension filename ;;
  let mime := default [] content_type in
  if truthy mime && negb (existsb (pystr_eqb mime) allowed_mimes) then
    if negb (existsb (pystr_eqb ext) [lit "txt"; lit "md"]
             && pystr_eqb mime (lit "text/plain"))
    then
      emit (EvLog WARNING "upload_unsupported_mime") ;;;
      raise (HTTPException 400 (lit "Unsupported MIME type"))
    else ret ext
  else ret ext.

(** [upload_document]; [max_mb] is [_get_max_upload_mb()]. *)
Definition upload_document (max_mb : Z) (filename : pystr) (content_type : option pystr)
    (content : bytes) (user_id : Z) : M Response :=
  validate_file_upload filename content_type ;;;
  w <~ get ;;
  let doc_id := doc_id_counter w in
  set_counter (doc_id + 1) ;;;
  let name := py_str doc_id ++ lit "_" ++ filename in
  let save_path := lit "uploads/" ++ name in
  let size_bytes := Z.of_nat (length content) in
  if size_bytes >? max_mb * (1024 * 1024) then
    emit (EvLog WARNING "upload_too_large") ;;;
    raise (HTTPException 400
             (lit "File too large. Max " ++ py_str max_mb ++ lit "MB allowed"))
  else
    match open_upload (upload_files w) name with
    | Some e => raise e
    | None => ret tt
    end ;;;
    set_upload save_path content ;;;
    let record := {| d_id := doc_id; d_filename := filename; d_owner_id := user_id;
                     d_status := "pending"; d_error := None |} in
    set_document doc_id record ;;;
    w <~ get ;;
    set_queue (task_queue w ++ [(doc_id, save_path)]) ;;;
    emit (EvLog INFO "upload_accepted") ;;;
    ret (api_response (PDocument record)
           (lit "File uploaded successfully. Embedding job triggered.") 201).

(** The worker takes the oldest queued task and runs it to its end. *)
Definition worker_run_next : M (option bool) :=
  w <~ get ;;
  match task_queue w with
  | [] => ret None
  | (doc_id, file_path) :: rest =>
      set_queue rest ;;;
      ok <~ process_document_task doc_id file_path ;;
      ret (Some ok)
  end.

End WithBackend.
End Ingest.

(** ** [_inc_usage] run by several processes on one counter file

    Each process goes through the system calls of [_inc_usage] one at a
    time; a schedule picks which process moves next.  The file is opened
    with ["a+"], so the text handed to [f.write] stays in the process's
    buffer until the [with] block closes the file, and is then appended
    at the end of the file. *)

Module Flock.
Import PyText.

Inductive pc :=
| AtOpen                      (* with open(path, "a+", ...) as f *)
| AtLock                      (* fcntl.flock(f.fileno(), fcntl.LOCK_EX) *)
| AtRead                      (* f.seek(0); val = f.read().strip(); count = int(val or 0) + 1 *)
| AtTruncate (count : Z)      (* f.seek(0); f.truncate(0) *)
| AtWrite (count : Z)         (* f.write(str(count)) *)
| AtUnlock (buffer : bytes)   (* fcntl.flock(f.fileno(), fcntl.LOCK_UN) *)
| AtClose (buffer : bytes)    (* leaving the with block: flush, close *)
| Done
| Failed.                     (* an exception was raised; the file was closed on the way out *)

Record system := {
  procs : list pc;
  file : option bytes;
  lock : option nat
}.

Definition set_pc (i : nat) (p : pc) (s : system) : list pc := <[i := p]> (procs s).

(** One system call of process [i]; [None] when the process cannot move
    (it has finished, or it waits for the lock). *)
Definition step (i : nat) (s : system) : option system :=
  match procs s !! i with
  | None => None
  | Some AtOpen =>
      Some {| procs := set_pc i AtLock s;
              file := Some (default [] (file s)); lock := lock s |}
  | Some AtLock =>
      match lock s with
      | None => Some {| procs := set_pc i AtRead s; file := file s; lock := Some i |}
      | Some _ => None
      end
  | Some AtRead =>
      match utf8_decode (default [] (file s)) ≫= (fun text =>
              int_or_zero (strip (read_text text))) with
      | Some count =>
          Some {| procs := set_pc i (AtTruncate (count + 1)) s;
                  file := file s; lock := lock s |}
      | None => Some {| procs := set_pc i Failed s; file := file s; lock := None |}
      end
  | Some (AtTruncate count) =>
      Some {| procs := set_pc i (AtWrite count) s; file := Some []; lock := lock s |}
  | Some (AtWrite count) =>
      match py_str_limited count ≫= utf8_encode with
      | Some buffer =>
          Some {| procs := set_pc i (AtUnlock buffer) s; file := file s; lock := lock s |}
      | None => Some {| procs := set_pc i Failed s; file := file s; lock := None |}
      end
  | Some (AtUnlock buffer) =>
      Some {| procs := set_pc i (AtClose buffer) s; file := file s; lock := None |}
  | Some (AtClose buffer) =>
      Some {| procs := set_pc i Done s;
              file := Some (default [] (file s) ++ buffer); lock := lock s |}
  | Some Done => None
  | Some Failed => None
  end.

Fixpoint run (schedule : list nat) (s : system) : option system :=
  match schedule with
  | [] => Some s
  | i :: rest =>
      match step i s with
      | Some s' => run rest s'
      | None => None
      end
  end.

(** [m] processes about to increment the same counter file. *)
Definition initial (m : nat) (f : option bytes) : system :=
  {| procs := replicate m AtOpen; file := f; lock := None |}.

Definition all_done (s : system) : bool :=
  forallb (fun p => match p with Done => true | _ => false end) (procs s).

(** The count a later [_read_usage] finds in the file. *)
Definition stored_count (s : system) : Z :=
  match file s with
  | None => 0
  | Some raw =>
      default 0 (utf8_decode raw ≫= (fun text => int_or_zero (strip (read_text text))))
  end.

(** Process 0 runs all of [_inc_usage], then process 1 does. *)
Definition one_after_the_other : list nat :=
  [0; 0; 0; 0; 0; 0; 0; 1; 1; 1; 1; 1; 1; 1]%nat.

(** Process 1 takes the lock after process 0 released it and before
    process 0 has closed the file. *)
Definition overlapping : list nat :=
  [0; 0; 0; 0; 0; 0; 1; 1; 1; 0; 1; 1; 1; 1]%nat.

End Flock.

(** ** Vocabulary of the properties *)

Module Props.
Import PyText Core Ledger Rag Ingest.

Definition is_digit (c : N) : Prop := (48 <= c <= 57)%N.

(** No line break of either kind in a text. *)
Definition no_newline (s : pystr) : bool :=
  forallb (fun c => negb (c =? LF)%N && negb (c =? CR)%N) s.

Definition cr_free (s : pystr) : bool := forallb (fun c => negb (c =? CR)%N) s.

(** A file made of whole lines: empty, or ending with a line feed. *)
Definition terminated (raw : pystr) : bool :=
  match last raw with
  | None => true
  | Some c => (c =? LF)%N
  end.

(** [p] occurs somewhere in [s]. *)
Fixpoint occurs (p s : pystr) : bool :=
  is_prefix p s || match s with [] => false | _ :: s' => occurs p s' end.

(** The first four characters of [CHUNK_SEP]: what follows a chunk's
    last character in the file when another chunk comes after it. *)
Definition SEP_HEAD : pystr := [10; 45; 45; 45]%N.

(** The separator text shows up in the chunk file only where [join]
    put it: no chunk contains it, and no chunk's end together with the
    start of the separator after it makes up one. *)
Fixpoint well_delimited (chunks : list pystr) : bool :=
  match chunks with
  | [] => true
  | [c] => negb (occurs CHUNK_SEP c)
  | c :: rest => negb (occurs CHUNK_SEP (c ++ SEP_HEAD)) && well_delimited rest
  end.

Definition starts_clean (c : pystr) : bool :=
  match c with [] => false | x :: _ => negb (isspace x) end.

Definition ends_clean (c : pystr) : bool :=
  match last c with None => false | Some x => negb (isspace x) end.

(** The first chunk starts and the last chunk ends with a character that
    [strip] keeps. *)
Definition edges_clean (chunks : list pystr) : bool :=
  match chunks with
  | [] => false
  | c :: _ => starts_clean c && ends_clean (List.last chunks [])
  end.

Definition retrieval_event (e : Event) : bool :=
  match e with
  | EvLog _ _ => false
  | _ => true
  end.

(** The three outward signals of [ask_question] that are not an answer. *)
Definition NotFound : Exn + Response :=
  inl (HTTPException 404 (lit "Knowledge base not found")).

Definition NoContext : Exn + Response :=
  inr (api_response PEmptyList (lit "No relevant context found.") 404).

Definition QuotaExceeded (daily_limit : Z) : Exn + Response :=
  inl (HTTPException 429 (limit_detail daily_limit)).

(** A 200 response carrying an answer. *)
Definition succeeded (r : Exn + Response) : bool :=
  match r with
  | inr resp => (r_status_code resp =? 200) &&
                match r_data resp with PAnswer _ _ => true | _ => false end
  | inl _ => false
  end.

(** What varies between two calls of one user on one day. *)
Record Request := {
  q_uuid : pystr;
  q_stamp : pystr;
  q_doc_id : Z;
  q_question : pystr
}.

(** The line [append_history_entry] writes for a record. *)
Definition record_line (e : Entry) : pystr := json_dumps e ++ [LF].

(** The text of a history file after the records were appended, in
    that order, to an empty file. *)
Definition appended_text (entries : list Entry) : pystr :=
  foldl (fun raw e => raw ++ record_line e) [] entries.

(** The bytes of that file; [None] when a record holds a surrogate, which
    [f.write] refuses. *)
Definition appended (entries : list Entry) : option bytes :=
  utf8_encode (appended_text entries).

(** The integer the text of a counter file denotes: [None] when the
    bytes are not UTF-8 or the text is not an integer. *)
Definition counter_parse (raw : bytes) : option Z :=
  utf8_decode raw ≫= fun text => int_or_zero (strip (read_text text)).

(** The persisted counter-file value: the integer the file denotes, 0
    when it denotes none. *)
Definition counter_value (raw : bytes) : Z := default 0 (counter_parse raw).

(** A text UTF-8 can encode: no surrogate in it. *)
Definition encodable (s : pystr) : Prop := utf8_encode s <> None.

(** Text in which every character is one byte. *)
Definition ascii (s : pystr) : Prop := Forall (fun c => (c < 128)%N) s.

Section WithBackend.
Context `{Backend}.

(** What the listing keeps of a line. *)
Definition parsed (line : pystr) : option Json :=
  match json_loads line with
  | Parsed j => Some j
  | _ => None
  end.

(** [json.loads] takes the line or rejects it as malformed JSON. *)
Definition loads_or_skips (line : pystr) : Prop :=
  forall e, json_loads line <> LoadFailed e.

(** The text of the day's history file: empty when there is no file,
    [None] when the file is not UTF-8. *)
Definition history_text (w : World) (k : ukey) : option pystr :=
  match history_files w !! k with
  | None => Some []
  | Some raw => utf8_decode raw
  end.

(** The lines [f.readlines()] gives. *)
Definition history_lines (w : World) (k : ukey) : option (list pystr) :=
  readlines <$> history_text w k.

(** The three sources [count_today] looks at. *)
Definition file_count (w : World) (k : ukey) : Z :=
  Z.of_nat (length (default [] (history_lines w k))).

Definition cached (w : World) (k : ukey) : Z := default 0 (daily_cache w !! k).

Definition stored_usage (w : World) (k : ukey) : Z :=
  match usage_files w !! k with
  | None => 0
  | Some raw => counter_value raw
  end.

(** Nothing recorded yet for the user on that day. *)
Definition fresh (w : World) (k : ukey) : Prop :=
  history_files w !! k = None /\ usage_files w !! k = None /\ daily_cache w !! k = None.

(** The history file of the key, if any, is text made of whole lines. *)
Definition whole_lines (w : World) (k : ukey) : Prop :=
  exists text, history_text w k = Some text /\ terminated text = true.

(** The count [count_today] answers when it can read the history file. *)
Definition daily_count (w : World) (k : ukey) : Z :=
  Z.max (Z.max (file_count w k) (cached w k)) (stored_usage w k).

(** Two worlds that differ at most in the ledger: the history files, the
    counter files and the cache. *)
Definition ledger_only (w w' : World) : Prop :=
  index_files w' = index_files w /\ chunk_files w' = chunk_files w
  /\ upload_files w' = upload_files w /\ documents_db w' = documents_db w
  /\ doc_id_counter w' = doc_id_counter w /\ task_queue w' = task_queue w
  /\ trace w' = trace w.

(** Two worlds that differ at most in their trace, their uploads and
    their queue. *)
Definition same_stores (w w' : World) : Prop :=
  history_files w' = history_files w /\ usage_files w' = usage_files w
  /\ daily_cache w' = daily_cache w /\ index_files w' = index_files w
  /\ chunk_files w' = chunk_files w /\ documents_db w' = documents_db w.

(** The record [ask_question] hands to [append_history_entry]. *)
Definition entry_for (user_id doc_id : Z) (question : pystr)
    (context_chunks : list pystr) (indices : list Z) : Entry :=
  let context := join [LF] context_chunks in
  {| e_user_id := user_id; e_doc_id := doc_id; e_question := question;
     e_answer := query_local_llm question context;
     e_context_preview := take 300 context;
     e_top_k := 3; e_chunk_indices := indices;
     e_id := None; e_timestamp := None |}.

(** The 200 response of [ask_question]. *)
Definition answer_response (question : pystr) (context_chunks : list pystr) : Response :=
  api_response (PAnswer (query_local_llm question (join [LF] context_chunks)) context_chunks)
    (lit "Answer generated successfully.") 200.

(** Calls of [ask_question] one after the other, by one user on one day. *)
Fixpoint run_asks (today : N) (daily_limit user_id : Z) (reqs : list Request) (w : World)
    : list (Exn + Response) * World :=
  match reqs with
  | [] => ([], w)
  | q :: rest =>
      let '(r, w1) := ask_question today (q_uuid q) (q_stamp q) daily_limit
                        (q_doc_id q) (q_question q) user_id w in
      let '(rs, w2) := run_asks today daily_limit user_id rest w1 in
      (r :: rs, w2)
  end.

(** The world with one more event in its trace. *)
Definition logged (e : Event) (w : World) : World := snd (emit e w).

End WithBackend.
End Props.

(** ** A concrete backend and concrete worlds *)

Module Demo.
Import PyText Core Ledger Rag Ingest Props.

(** A stand-in for [json.loads]: a line is taken as a value when it is
    bracketed as an object or as an array, and as malformed otherwise. *)
Definition bracketed (line : pystr) : Loaded pystr :=
  let t := strip line in
  match t, last t with
  | 123%N :: _, Some 125%N => Parsed t
  | 91%N :: _, Some 93%N => Parsed t
  | _, _ => JSONDecodeError
  end.

(** A stand-in backend: the stored index is the ranking every search
    returns, and the text collaborators are the simplest ones. *)
#[export] Instance demo_backend : Backend := {|
  Index := list Z;
  Vec := pystr;
  Json := pystr;
  json_loads := bracketed;
  index_d := fun _ => 5;
  make_query_vector := fun q _ => inr q;
  index_search := fun ix _ k => inr (take (Z.to_nat k) ix);
  pdf_extract := fun b => inr b;
  split_text := fun t => inr (if truthy t then split [10; 10]%N t else []);
  embed_documents := fun cs => inr cs;
  build_index := fun vs => inr (map Z.of_nat (seq 0 (length vs)))
|}.

Definition world_of (ix : gmap Z (list Z)) (ch : gmap Z bytes) (us : gmap ukey bytes)
    : World :=
  {| history_files := ∅; usage_files := us; daily_cache := ∅;
     index_files := ix; chunk_files := ch; upload_files := ∅;
     documents_db := ∅; doc_id_counter := 1; task_queue := []; trace := [] |}.

Definition empty_world : World := world_of ∅ ∅ ∅.

(** The chunk file and index of [create_dummy_index_and_chunks]. *)
Definition three_chunks : list pystr :=
  [lit "Chunk one"; lit "Chunk two"; lit "Chunk three"].

Definition indexed_world : World :=
  world_of {[ 1 := [0; 1; 2] ]} {[ 1 := join CHUNK_SEP three_chunks ]} ∅.

(** An index file without its chunk file. *)
Definition index_only_world : World := world_of {[ 1 := [0; 1; 2] ]} ∅ ∅.

(** A chunk file without its index file. *)
Definition chunks_only_world : World :=
  world_of ∅ {[ 1 := join CHUNK_SEP three_chunks ]} ∅.

Definition day1 : N := 738000%N.
Definition alice : Z := 7.

(** The counter file of the day holds text that is not a number. *)
Definition corrupt_counter_world : World :=
  world_of {[ 1 := [0; 1; 2] ]} {[ 1 := join CHUNK_SEP three_chunks ]}
           {[ (alice, day1) := lit "abc" ]}.

Definition req1 : Request :=
  {| q_uuid := lit "0b0e6a3c"; q_stamp := lit "2021-07-30T10:00:00Z";
     q_doc_id := 1; q_question := lit "What is inside?" |}.

Definition req2 : Request :=
  {| q_uuid := lit "7c1d9f52"; q_stamp := lit "2021-07-30T10:00:05Z";
     q_doc_id := 1; q_question := lit "Again?" |}.

(** A Markdown chunk with a heading underlined by dashes, then a rule
    and a paragraph: the text holds the separator itself. *)
Definition ruled_chunk : pystr := lit "Title" ++ CHUNK_SEP ++ lit "body".

(** A Markdown file of three paragraphs, the middle one blank. *)
Definition notes_text : pystr :=
  lit "Intro" ++ [LF; LF] ++ lit " " ++ [LF; LF] ++ lit "Body".

(** The world after [notes.md] was uploaded: record created, task queued. *)
Definition uploaded_world : World :=
  snd (upload_document 25 (lit "notes.md") (Some (lit "text/markdown")) notes_text
         alice empty_world).

(** The world after a file holding just [ruled_chunk] was uploaded. *)
Definition ruled_uploaded_world : World :=
  snd (upload_document 25 (lit "readme.md") (Some (lit "text/markdown")) ruled_chunk
         alice empty_world).

(** The counter file says the user has asked 20 questions today. *)
Definition exhausted_world : World :=
  world_of {[ 1 := [0; 1; 2] ]} {[ 1 := join CHUNK_SEP three_chunks ]}
           {[ (alice, day1) := lit "20" ]}.

(** A history file of three lines, the second one cut short. *)
Definition torn_history : bytes :=
  lit "[1]" ++ [LF] ++ lit "[2" ++ [LF] ++ lit "[3]" ++ [LF].

(** Three lines in the history file, 2 in the counter file, no cache entry. *)
Definition drifted_world : World :=
  snd (set_history (alice, day1) torn_history
         (world_of ∅ ∅ {[ (alice, day1) := lit "2" ]})).

(** The counter file holds a negative literal. *)
Definition negative_counter_world : World :=
  world_of {[ 1 := [0; 1; 2] ]} {[ 1 := join CHUNK_SEP three_chunks ]}
           {[ (alice, day1) := lit "-5" ]}.

(** The world after the two calls of the daily-limit test were answered. *)
Definition two_calls_world : World :=
  snd (run_asks day1 20 alice [req1; req2] indexed_world).

(** A third question, with two accented letters. *)
Definition accent_question : pystr :=
  lit "O" ++ [249%N] ++ lit " est la cl" ++ [233%N] ++ lit " ?".

(** The bytes [append_history_entry] writes for the answer to it. *)
Definition third_record : bytes :=
  default []
    (utf8_encode
       (record_line
          (with_id_and_timestamp (lit "c41d88a0") (lit "2021-07-30T10:00:09Z")
             (entry_for alice 1 accent_question three_chunks [0; 1; 2])))).

(** What is on disk of a record whose write stopped half way: the bytes
    up to the first byte of its first two-byte character, and the bytes
    before that character. *)
Fixpoint cut_inside (record : bytes) : bytes :=
  match record with
  | [] => []
  | b :: rest => if (192 <=? b)%N then [b] else b :: cut_inside rest
  end.

Fixpoint cut_before (record : bytes) : bytes :=
  match record with
  | [] => []
  | b :: rest => if (192 <=? b)%N then [] else b :: cut_before rest
  end.

Definition with_history_tail (tail : bytes) (w : World) : World :=
  snd (set_history (alice, day1)
         (default [] (history_files w !! (alice, day1)) ++ tail) w).

(** Two records, then a third one cut inside a character. *)
Definition crashed_world : World :=
  with_history_tail (cut_inside third_record) two_calls_world.

(** Two records, then a third one cut between two characters. *)
Definition crashed_clean_world : World :=
  with_history_tail (cut_before third_record) two_calls_world.

End Demo.

(** * Proofs *)
(** ** Facts about the text primitives *)

Module PyTextFacts.
Import PyText Props.

Lemma lstrip_clean (s : pystr) :
  starts_clean s = true -> lstrip s = s.
Proof.
  destruct s as [|c s]; simpl; [discriminate|].
  intros Hc. apply negb_true_iff in Hc. now rewrite Hc.
Qed.

Lemma ends_clean_snoc (s : pystr) :
  ends_clean s = true -> exists t c, s = t ++ [c] /\ isspace c = false.
Proof.
  unfold ends_clean. destruct (last s) as [c|] eqn:E; [|discriminate].
  intros Hc. apply last_Some in E as [t ->].
  exists t, c. split; [reflexivity|]. now apply negb_true_iff.
Qed.

Lemma rstrip_clean (s : pystr) :
  ends_clean s = true -> rstrip s = s.
Proof.
  intros (t & c & -> & Hc)%ends_clean_snoc.
  unfold rstrip. rewrite rev_app_distr. simpl. rewrite Hc.
  simpl. now rewrite rev_involutive.
Qed.

(** [strip] leaves alone a text whose first and last characters are not
    white space. *)
Lemma strip_clean (s : pystr) :
  starts_clean s = true -> ends_clean s = true -> strip s = s.
Proof.
  intros Hs He. unfold strip. rewrite (lstrip_clean _ Hs). now apply rstrip_clean.
Qed.

Lemma render_uint_digits (d : uint) : Forall is_digit (render_uint d).
Proof.
  induction d; simpl; constructor; try assumption; unfold is_digit; lia.
Qed.

Lemma parse_render_true (d : uint) : parse_digits true (render_uint d) = Some d.
Proof.
  induction d; simpl; try reflexivity; now rewrite IHd.
Qed.

Lemma parse_render (d : uint) :
  d <> Nil -> parse_digits false (render_uint d) = Some d.
Proof.
  destruct d; [congruence| ..]; intros _; simpl; now rewrite parse_render_true.
Qed.

Lemma digit_not_space (c : N) : is_digit c -> isspace c = false.
Proof.
  unfold is_digit, isspace. intros Hc.
  repeat match goal with
         | |- context [(?a <=? ?b)%N] => destruct (N.leb_spec a b); try lia
         | |- context [(?a =? ?b)%N] => destruct (N.eqb_spec a b); try lia
         end; reflexivity.
Qed.

Lemma render_uint_edges (d : uint) :
  d <> Nil -> starts_clean (render_uint d) = true /\ ends_clean (render_uint d) = true.
Proof.
  intros Hd. pose proof (render_uint_digits d) as Hall.
  assert (Hne : render_uint d <> []) by (destruct d; simpl; congruence).
  split.
  - destruct (render_uint d) as [|c r]; [congruence|]. simpl.
    inversion Hall; subst. now rewrite digit_not_space.
  - unfold ends_clean. destruct (last (render_uint d)) as [c|] eqn:E.
    + apply last_Some in E as [t E]. rewrite E in Hall.
      apply Forall_app in Hall as [_ Hc]. inversion Hc; subst.
      now rewrite digit_not_space.
    + apply last_None in E. congruence.
Qed.

Lemma to_int_cases (z : Z) :
  exists u, u <> Nil /\ (Z.to_int z = Decimal.Pos u \/ Z.to_int z = Decimal.Neg u).
Proof.
  destruct z as [|p|p]; simpl.
  - exists (D0 Nil). split; [congruence|now left].
  - exists (Pos.to_uint p). split; [apply Unsigned.to_uint_nonnil|now left].
  - exists (Pos.to_uint p). split; [apply Unsigned.to_uint_nonnil|now right].
Qed.

Lemma py_str_edges (z : Z) :
  starts_clean (py_str z) = true /\ ends_clean (py_str z) = true.
Proof.
  unfold py_str. destruct (to_int_cases z) as (u & Hu & [-> | ->]); simpl.
  - now apply render_uint_edges.
  - destruct (render_uint_edges u Hu) as [_ He]. split; [reflexivity|].
    unfold ends_clean in *. destruct (render_uint u) as [|c r] eqn:E.
    + destruct u; simpl in E; congruence.
    + now rewrite last_cons_cons.
Qed.

Lemma strip_py_str (z : Z) : strip (py_str z) = py_str z.
Proof. destruct (py_str_edges z). now apply strip_clean. Qed.

Lemma sign_match {A} (f g h : pystr -> A) (c : N) (r : pystr) :
  c <> 45%N -> c <> 43%N ->
  match c :: r with
  | 45%N :: r' => f r'
  | 43%N :: r' => g r'
  | r' => h r'
  end = h (c :: r).
Proof.
  intros H45 H43. destruct c as [|p]; [reflexivity|].
  do 6 (destruct p as [p|p|]; try reflexivity); congruence.
Qed.

Lemma py_int_unsigned (c : N) (r : pystr) :
  c <> 45%N -> c <> 43%N -> strip (c :: r) = c :: r ->
  py_int (c :: r)
  = (fun u => Z.of_int (Decimal.Pos u)) <$> (parse_digits false (c :: r) ≫= limited).
Proof.
  intros H45 H43 Hs. unfold py_int. rewrite Hs.
  exact (sign_match
           (fun r' => (fun u => Z.of_int (Decimal.Neg u)) <$> (parse_digits false r' ≫= limited))
           (fun r' => (fun u => Z.of_int (Decimal.Pos u)) <$> (parse_digits false r' ≫= limited))
           (fun r' => (fun u => Z.of_int (Decimal.Pos u)) <$> (parse_digits false r' ≫= limited))
           c r H45 H43).
Qed.

Lemma py_int_negative (r : pystr) :
  strip (45%N :: r) = 45%N :: r ->
  py_int (45%N :: r)
  = (fun u => Z.of_int (Decimal.Neg u)) <$> (parse_digits false r ≫= limited).
Proof. intros Hs. unfold py_int. rewrite Hs. reflexivity. Qed.

(** [int(str(n)) == n], for an [n] that [str] accepts. *)
Lemma py_int_py_str (z : Z) (s : pystr) :
  py_str_limited z = Some s -> py_int s = Some z.
Proof.
  unfold py_str_limited. pose proof (strip_py_str z) as Hstrip. unfold py_str in *.
  destruct (to_int_cases z) as (u & Hu & [E | E]); rewrite E in Hstrip |- *;
    simpl in Hstrip |- *;
    destruct (within_digit_limit u) eqn:Hlim; try discriminate; intros [= <-].
  - pose proof (render_uint_digits u) as Hall.
    destruct (render_uint u) as [|c r] eqn:Er.
    + destruct u; simpl in Er; congruence.
    + inversion Hall as [|? ? Hc _]; subst. unfold is_digit in Hc.
      rewrite py_int_unsigned by (try lia; exact Hstrip).
      rewrite <- Er, (parse_render u Hu).
      change (Some u ≫= limited) with (limited u). unfold limited. rewrite Hlim.
      change (Some (Z.of_int (Decimal.Pos u)) = Some z).
      f_equal. rewrite <- E. apply DecimalZ.of_to.
  - rewrite py_int_negative by exact Hstrip.
    rewrite (parse_render u Hu).
    change (Some u ≫= limited) with (limited u). unfold limited. rewrite Hlim.
    change (Some (Z.of_int (Decimal.Neg u)) = Some z).
    f_equal. rewrite <- E. apply DecimalZ.of_to.
Qed.

Lemma py_str_nonempty (z : Z) : truthy (py_str z) = true.
Proof.
  destruct (py_str_edges z) as [Hs _]. destruct (py_str z); [discriminate|reflexivity].
Qed.

Lemma universal_newlines_cr_free (s : pystr) :
  cr_free s = true -> universal_newlines s = s.
Proof.
  induction s as [|c s IH]; [reflexivity|]. simpl.
  intros [Hc Hs]%andb_true_iff. apply negb_true_iff in Hc.
  rewrite Hc. now rewrite IH.
Qed.

Lemma digits_cr_free (s : pystr) : Forall is_digit s -> cr_free s = true.
Proof.
  induction 1 as [|c s Hc _ IH]; [reflexivity|]. simpl. rewrite IH.
  unfold is_digit in Hc. destruct (N.eqb_spec c CR) as [->|]; [unfold CR in Hc; lia|reflexivity].
Qed.

Lemma py_str_cr_free (z : Z) : cr_free (py_str z) = true.
Proof.
  unfold py_str. destruct (to_int_cases z) as (u & _ & [-> | ->]); simpl;
    apply digits_cr_free, render_uint_digits.
Qed.

(** Reading back a counter that [str] wrote. *)
Lemma read_back_py_str (z : Z) (s : pystr) :
  py_str_limited z = Some s ->
  int_or_zero (strip (read_text s)) = Some z.
Proof.
  intros Hs. pose proof (py_int_py_str z s Hs) as Hint.
  unfold py_str_limited in Hs. destruct (within_digit_limit _); [|discriminate].
  injection Hs as <-.
  unfold read_text. rewrite (universal_newlines_cr_free _ (py_str_cr_free z)).
  rewrite strip_py_str. unfold int_or_zero. rewrite py_str_nonempty.
  exact Hint.
Qed.

End PyTextFacts.

Module CodecFacts.
Import PyText Props PyTextFacts.

Lemma utf8_go_app (a : bytes) :
  forall pending s,
    utf8_go pending a = Some s ->
    forall b, utf8_go pending (a ++ b) = (s ++.) <$> utf8_go None b.
Proof.
  induction a as [|x a IH]; intros pending s Ha b.
  - destruct pending; simpl in Ha; [discriminate|]. injection Ha as <-.
    simpl. now destruct (utf8_go None b).
  - cbn [utf8_go app] in *. destruct pending as [[[more acc] low]|].
    + destruct (continuation x); [|discriminate].
      destruct more as [|more'].
      * destruct (scalar low _); [|discriminate].
        destruct (utf8_go None a) as [t|] eqn:Et; [|discriminate].
        injection Ha as <-. rewrite (IH None t Et b).
        now destruct (utf8_go None b).
      * now apply IH.
    + destruct (x <? 128)%N.
      * destruct (utf8_go None a) as [t|] eqn:Et; [|discriminate].
        injection Ha as <-. rewrite (IH None t Et b).
        now destruct (utf8_go None b).
      * destruct (_ && _); [now apply IH|].
        destruct (_ && _); [now apply IH|].
        destruct (_ && _); [now apply IH|discriminate].
Qed.

(** Decoding a concatenation of two well-formed byte strings. *)
Lemma utf8_decode_app (a b : bytes) (s t : pystr) :
  utf8_decode a = Some s -> utf8_decode b = Some t ->
  utf8_decode (a ++ b) = Some (s ++ t).
Proof.
  unfold utf8_decode. intros Ha Hb. rewrite (utf8_go_app a None s Ha b), Hb. reflexivity.
Qed.

Lemma utf8_decode_app_bad (a b : bytes) (s : pystr) :
  utf8_decode a = Some s -> utf8_decode b = None -> utf8_decode (a ++ b) = None.
Proof.
  unfold utf8_decode. intros Ha Hb. rewrite (utf8_go_app a None s Ha b), Hb. reflexivity.
Qed.

Lemma utf8_encode_app (s t : pystr) :
  utf8_encode (s ++ t)
  = match utf8_encode s, utf8_encode t with
    | Some a, Some b => Some (a ++ b)
    | _, _ => None
    end.
Proof.
  induction s as [|c s IH]; simpl.
  - now destruct (utf8_encode t).
  - rewrite IH. destruct (utf8_encode_cp c) as [x|]; [|reflexivity].
    destruct (utf8_encode s) as [a|]; [|reflexivity].
    destruct (utf8_encode t) as [b|]; [|reflexivity].
    now rewrite app_assoc.
Qed.

Ltac decide_cmp :=
  repeat match goal with
         | |- context [(?a <? ?b)%N] =>
             first [ rewrite (proj2 (N.ltb_lt a b)) by lia
                   | rewrite (proj2 (N.ltb_ge a b)) by lia ]
         | |- context [(?a <=? ?b)%N] =>
             first [ rewrite (proj2 (N.leb_le a b)) by lia
                   | rewrite (proj2 (N.leb_gt a b)) by lia ]
         end.

(** One encoded code point, decoded. *)
Lemma utf8_go_encode_cp (c : N) (bs : bytes) :
  utf8_encode_cp c = Some bs ->
  forall rest, utf8_go None (bs ++ rest) = cons c <$> utf8_go None rest.
Proof.
  unfold utf8_encode_cp. intros Hc rest.
  destruct (N.ltb_spec c 128) as [H1|H1].
  { injection Hc as <-. cbn [app utf8_go].
    destruct (N.ltb_spec c 128); [reflexivity|lia]. }
  destruct (N.ltb_spec c 2048) as [H2|H2].
  { injection Hc as <-.
    pose proof (N.div_mod' c 64) as Hdm.
    pose proof (N.mod_lt c 64 ltac:(lia)) as Hm.
    assert (Hq : (2 <= c / 64 < 32)%N).
    { split; [apply N.div_le_lower_bound; lia|apply N.Div0.div_lt_upper_bound; lia]. }
    set (q := (c / 64)%N) in *. set (r := (c mod 64)%N) in *.
    cbn [app utf8_go]. unfold continuation, scalar.
    replace (192 + q - 192)%N with q by lia.
    replace (128 + r - 128)%N with r by lia.
    replace (q * 64 + r)%N with c by lia.
    decide_cmp; reflexivity. }
  destruct (N.ltb_spec c 65536) as [H3|H3].
  { destruct ((55296 <=? c) && (c <=? 57343))%N eqn:Hs; [discriminate|].
    injection Hc as <-.
    pose proof (N.div_mod' c 64) as Hdm.
    pose proof (N.mod_lt c 64 ltac:(lia)) as Hm.
    pose proof (N.div_mod' (c / 64) 64) as Hdm2.
    pose proof (N.mod_lt (c / 64) 64 ltac:(lia)) as Hm2.
    assert (Hdd : (c / 4096 = c / 64 / 64)%N) by (now rewrite N.Div0.div_div by lia).
    assert (Hq : (c / 64 / 64 < 16)%N).
    { rewrite <- Hdd. apply N.Div0.div_lt_upper_bound; lia. }
    rewrite Hdd.
    set (q := (c / 64 / 64)%N) in *. set (m := (c / 64 mod 64)%N) in *.
    set (r := (c mod 64)%N) in *.
    cbn [app utf8_go]. unfold continuation, scalar.
    replace (224 + q - 224)%N with q by lia.
    replace (128 + m - 128)%N with m by lia.
    replace (128 + r - 128)%N with r by lia.
    replace ((q * 64 + m) * 64 + r)%N with c by lia.
    rewrite Hs.
    decide_cmp; reflexivity. }
  destruct (N.ltb_spec c 1114112) as [H4|H4]; [|discriminate].
  injection Hc as <-.
  pose proof (N.div_mod' c 64) as Hdm.
  pose proof (N.mod_lt c 64 ltac:(lia)) as Hm.
  pose proof (N.div_mod' (c / 64) 64) as Hdm2.
  pose proof (N.mod_lt (c / 64) 64 ltac:(lia)) as Hm2.
  pose proof (N.div_mod' (c / 64 / 64) 64) as Hdm3.
  pose proof (N.mod_lt (c / 64 / 64) 64 ltac:(lia)) as Hm3.
  assert (Hdd : (c / 4096 = c / 64 / 64)%N) by (now rewrite N.Div0.div_div by lia).
  assert (Hddd : (c / 262144 = c / 64 / 64 / 64)%N) by (now rewrite !N.Div0.div_div by lia).
  assert (Hq : (c / 64 / 64 / 64 < 8)%N).
  { rewrite <- Hddd. apply N.Div0.div_lt_upper_bound; lia. }
  rewrite Hdd, Hddd.
  set (q := (c / 64 / 64 / 64)%N) in *. set (n := (c / 64 / 64 mod 64)%N) in *.
  set (m := (c / 64 mod 64)%N) in *. set (r := (c mod 64)%N) in *.
  cbn [app utf8_go]. unfold continuation, scalar.
  replace (240 + q - 240)%N with q by lia.
  replace (128 + n - 128)%N with n by lia.
  replace (128 + m - 128)%N with m by lia.
  replace (128 + r - 128)%N with r by lia.
  replace (((q * 64 + n) * 64 + m) * 64 + r)%N with c by lia.
  decide_cmp; reflexivity.
Qed.

(** What [f.write] encoded, [f.read] decodes. *)
Lemma utf8_round_trip (s : pystr) (bs : bytes) :
  utf8_encode s = Some bs -> utf8_decode bs = Some s.
Proof.
  unfold utf8_decode. revert bs. induction s as [|c s IH]; intros bs; simpl.
  - now intros [= <-].
  - destruct (utf8_encode_cp c) as [x|] eqn:Ec; [|discriminate].
    destruct (utf8_encode s) as [a|]; [|discriminate].
    intros [= <-]. rewrite (utf8_go_encode_cp c x Ec a), (IH a eq_refl). reflexivity.
Qed.

Lemma utf8_encode_ascii (s : pystr) : ascii s -> utf8_encode s = Some s.
Proof.
  induction 1 as [|c s Hc _ IH]; [reflexivity|]. simpl. rewrite IH.
  unfold utf8_encode_cp. destruct (N.ltb_spec c 128); [reflexivity|lia].
Qed.

Lemma utf8_decode_ascii (s : pystr) : ascii s -> utf8_decode s = Some s.
Proof. intros Hs. apply utf8_round_trip, utf8_encode_ascii, Hs. Qed.

Lemma ascii_digits (s : pystr) : Forall is_digit s -> ascii s.
Proof.
  intros Hs. eapply Forall_impl; [exact Hs|]. unfold is_digit. intros c Hc. simpl in *. lia.
Qed.

Lemma ascii_py_str (z : Z) : ascii (py_str z).
Proof.
  unfold py_str. destruct (to_int_cases z) as (u & _ & [-> | ->]); simpl.
  - apply ascii_digits, render_uint_digits.
  - constructor; [lia|]. apply ascii_digits, render_uint_digits.
Qed.

Lemma py_str_limited_some (z : Z) (s : pystr) :
  py_str_limited z = Some s -> s = py_str z.
Proof. unfold py_str_limited. destruct (within_digit_limit _); now intros [= <-]. Qed.

End CodecFacts.

Module LineFacts.
Import PyText Props PyTextFacts Ledger.

(** Translating a text that has a line feed in it: everything after
    that line feed is translated on its own. *)
Lemma universal_newlines_split (a : pystr) :
  exists t, forall b,
    universal_newlines (a ++ LF :: b) = t ++ LF :: universal_newlines b.
Proof.
  remember (length a) as n eqn:Hn. revert a Hn.
  induction n as [n IH] using lt_wf_ind. intros a Hn.
  destruct a as [|c a'].
  - exists []. intros b. reflexivity.
  - destruct (N.eqb_spec c CR) as [->|Hc].
    + destruct a' as [|c' a''].
      * exists []. intros b. reflexivity.
      * destruct (N.eqb_spec c' LF) as [->|Hc'].
        -- destruct (IH (length a'') ltac:(simpl in Hn; lia) a'' eq_refl) as [t Ht].
           exists (LF :: t). intros b. simpl. now rewrite Ht.
        -- destruct (IH (length (c' :: a'')) ltac:(simpl in Hn |- *; lia) (c' :: a'') eq_refl)
             as [t Ht].
           exists (LF :: t). intros b.
           change (universal_newlines ((CR :: c' :: a'') ++ LF :: b))
             with (if (c' =? LF)%N then LF :: universal_newlines (a'' ++ LF :: b)
                   else LF :: universal_newlines ((c' :: a'') ++ LF :: b)).
           apply N.eqb_neq in Hc'. rewrite Hc'. now rewrite Ht.
    + destruct (IH (length a') ltac:(simpl in Hn; lia) a' eq_refl) as [t Ht].
      exists (c :: t). intros b.
      change (universal_newlines ((c :: a') ++ LF :: b))
        with (if (c =? CR)%N
              then match a' ++ LF :: b with
                   | c' :: s'' => if (c' =? LF)%N then LF :: universal_newlines s''
                                  else LF :: universal_newlines (a' ++ LF :: b)
                   | [] => [LF]
                   end
              else c :: universal_newlines (a' ++ LF :: b)).
      apply N.eqb_neq in Hc. rewrite Hc. now rewrite Ht.
Qed.

Lemma lines_of_nonempty (s : pystr) : s <> [] -> lines_of s <> [].
Proof.
  destruct s as [|c s]; [congruence|]. intros _. simpl.
  destruct (c =? LF)%N; [discriminate|].
  destruct (lines_of s); discriminate.
Qed.

Lemma cons_head_app (c : N) (x y : list pystr) :
  x <> [] -> cons_head c (x ++ y) = cons_head c x ++ y.
Proof. destruct x; [congruence|reflexivity]. Qed.

Lemma lines_of_split (a b : pystr) :
  lines_of (a ++ LF :: b) = lines_of (a ++ [LF]) ++ lines_of b.
Proof.
  induction a as [|c a IH]; [reflexivity|]. simpl.
  destruct (c =? LF)%N.
  - now rewrite IH.
  - rewrite IH. apply cons_head_app, lines_of_nonempty. now destruct a.
Qed.

Lemma lines_of_one (l : pystr) :
  no_newline l = true -> lines_of (l ++ [LF]) = [l ++ [LF]].
Proof.
  induction l as [|c l IH]; [reflexivity|]. simpl.
  intros [Hc Hl]%andb_true_iff. apply andb_true_iff in Hc as [Hc _].
  apply negb_true_iff in Hc. rewrite Hc. now rewrite IH.
Qed.

Lemma no_newline_cr_free (l : pystr) : no_newline l = true -> cr_free l = true.
Proof.
  induction l as [|c l IH]; [reflexivity|]. simpl.
  intros [Hc Hl]%andb_true_iff. apply andb_true_iff in Hc as [_ Hc].
  now rewrite Hc, IH.
Qed.

Lemma cr_free_app (a b : pystr) : cr_free (a ++ b) = cr_free a && cr_free b.
Proof. unfold cr_free. apply forallb_app. Qed.

Lemma terminated_cases (raw : pystr) :
  terminated raw = true -> raw = [] \/ exists o, raw = o ++ [LF].
Proof.
  unfold terminated. destruct (last raw) as [c|] eqn:E.
  - intros Hc%N.eqb_eq. subst c. apply last_Some in E as [o ->]. right. now exists o.
  - intros _. left. now apply last_None.
Qed.

Lemma terminated_snoc (raw : pystr) : terminated (raw ++ [LF]) = true.
Proof. unfold terminated. now rewrite last_snoc. Qed.

(** Appending one record to a file of whole lines adds exactly one
    line, after the lines already there. *)
Lemma readlines_append (old line : pystr) :
  terminated old = true -> no_newline line = true ->
  readlines (old ++ line ++ [LF]) = readlines old ++ [line ++ [LF]].
Proof.
  intros Hold Hline. unfold readlines.
  assert (Hun : universal_newlines (line ++ [LF]) = line ++ [LF]).
  { apply universal_newlines_cr_free. rewrite cr_free_app.
    now rewrite (no_newline_cr_free _ Hline). }
  destruct (terminated_cases _ Hold) as [-> | [o ->]].
  - simpl. rewrite Hun. now apply lines_of_one.
  - destruct (universal_newlines_split o) as [t Ht].
    rewrite <- app_assoc. simpl. rewrite Ht, Hun.
    specialize (Ht []). simpl in Ht. rewrite Ht.
    rewrite (lines_of_split t (line ++ [LF])). now rewrite (lines_of_one line Hline).
Qed.

Lemma no_newline_app (a b : pystr) : no_newline (a ++ b) = no_newline a && no_newline b.
Proof. unfold no_newline. apply forallb_app. Qed.

Lemma no_newline_digits (s : pystr) : Forall is_digit s -> no_newline s = true.
Proof.
  induction 1 as [|c s Hc _ IH]; [reflexivity|]. simpl. rewrite IH.
  unfold is_digit in Hc.
  destruct (N.eqb_spec c LF) as [->|]; [unfold LF in Hc; lia|].
  destruct (N.eqb_spec c CR) as [->|]; [unfold CR in Hc; lia|reflexivity].
Qed.

Lemma no_newline_py_str (z : Z) : no_newline (py_str z) = true.
Proof.
  unfold py_str. destruct (to_int_cases z) as (u & _ & [-> | ->]); simpl;
    apply no_newline_digits, render_uint_digits.
Qed.

Lemma hex_digit_no_newline (n : N) :
  negb (hex_digit n =? LF)%N && negb (hex_digit n =? CR)%N = true.
Proof.
  unfold hex_digit, LF, CR. destruct (n <? 10)%N;
    repeat match goal with
           | |- context [(?a =? ?b)%N] => destruct (N.eqb_spec a b); try lia
           end; reflexivity.
Qed.

Lemma no_newline_escape (c : N) : no_newline (json_escape c) = true.
Proof.
  unfold json_escape.
  repeat match goal with
         | |- context [if (c =? ?b)%N then _ else _] =>
             destruct (N.eqb_spec c b); [reflexivity|]
         end.
  destruct (c <? 32)%N; cbn [no_newline forallb].
  - now rewrite !hex_digit_no_newline.
  - unfold LF, CR.
    repeat match goal with
           | |- context [(?a =? ?b)%N] => destruct (N.eqb_spec a b); try lia
           end; reflexivity.
Qed.

Lemma no_newline_json_str (s : pystr) : no_newline (json_str s) = true.
Proof.
  unfold json_str. change (34%N :: ?x) with ([34%N] ++ x).
  rewrite !no_newline_app. simpl. rewrite andb_true_r.
  induction s as [|c s IH]; [reflexivity|]. simpl.
  now rewrite no_newline_app, no_newline_escape, IH.
Qed.

Lemma no_newline_join (sep : pystr) (parts : list pystr) :
  no_newline sep = true -> Forall (fun p => no_newline p = true) parts ->
  no_newline (join sep parts) = true.
Proof.
  intros Hsep. induction 1 as [|p ps Hp Hps IH]; [reflexivity|].
  destruct ps as [|p' ps]; [exact Hp|].
  change (join sep (p :: p' :: ps)) with (p ++ sep ++ join sep (p' :: ps)).
  now rewrite !no_newline_app, Hp, Hsep, IH.
Qed.

Lemma no_newline_int_list (l : list Z) : no_newline (json_int_list l) = true.
Proof.
  unfold json_int_list. rewrite !no_newline_app.
  rewrite no_newline_join; [reflexivity|reflexivity|].
  apply Forall_map, Forall_forall. intros z _. apply no_newline_py_str.
Qed.

Lemma no_newline_opt_str (o : option pystr) : no_newline (json_opt_str o) = true.
Proof. destruct o; [apply no_newline_json_str|reflexivity]. Qed.

(** A serialised record fits on one line. *)
Lemma no_newline_json_dumps (e : Entry) : no_newline (json_dumps e) = true.
Proof.
  unfold json_dumps. rewrite !no_newline_app.
  rewrite !no_newline_py_str, !no_newline_json_str, !no_newline_opt_str,
    no_newline_int_list.
  reflexivity.
Qed.

End LineFacts.

Module LedgerFacts.
Import PyText Core Ledger Props PyTextFacts CodecFacts LineFacts.

Ltac run_m :=
  unfold bind, ret, raise, get, lift, or_raise, emit, try_except,
    set_history, set_usage, set_cache; simpl.

Section WithBackend.
Context `{Backend}.

Lemma ledger_only_refl (w : World) : ledger_only w w.
Proof. unfold ledger_only. tauto. Qed.

Lemma ledger_only_trans (w1 w2 w3 : World) :
  ledger_only w1 w2 -> ledger_only w2 w3 -> ledger_only w1 w3.
Proof. unfold ledger_only. intuition congruence. Qed.

Lemma read_usage_spec (w : World) (user_id : Z) (for_date : N) :
  _read_usage user_id for_date w = (inr (stored_usage w (user_id, for_date)), w).
Proof.
  unfold _read_usage, stored_usage, counter_value, counter_parse. run_m.
  destruct (usage_files w !! (user_id, for_date)) as [raw|]; [|reflexivity].
  destruct (utf8_decode raw) as [text|]; simpl; [|reflexivity].
  now destruct (int_or_zero (strip (read_text text))).
Qed.

Lemma read_all_lines_spec (w : World) (k : ukey) :
  _read_all_lines w k
  = match history_lines w k with
    | Some lines => inr lines
    | None => inl UnicodeDecodeError
    end.
Proof.
  unfold _read_all_lines, history_lines, history_text.
  destruct (history_files w !! k) as [raw|]; [|reflexivity].
  now destruct (utf8_decode raw).
Qed.

(** [count_today]: the largest of the three sources when the history
    file can be read, the decoding error when it cannot. *)
Lemma count_today_spec (w : World) (today : N) (user_id : Z) :
  count_today today user_id w =
  match history_lines w (user_id, today) with
  | Some _ => (inr (daily_count w (user_id, today)), w)
  | None => (inl UnicodeDecodeError, w)
  end.
Proof.
  unfold count_today. unfold bind at 1. unfold get at 1.
  unfold bind at 1. unfold lift. rewrite read_all_lines_spec.
  unfold daily_count, file_count.
  destruct (history_lines w (user_id, today)) as [lines|]; [|reflexivity].
  unfold bind. rewrite read_usage_spec. reflexivity.
Qed.

Lemma count_today_returns (w w' : World) (today : N) (user_id count : Z) :
  count_today today user_id w = (inr count, w') ->
  w' = w /\ is_Some (history_lines w (user_id, today))
  /\ count = daily_count w (user_id, today).
Proof.
  rewrite count_today_spec.
  destruct (history_lines w (user_id, today)) as [lines|]; [|discriminate].
  intros [= <- <-]. eauto.
Qed.

Lemma count_today_readable (w : World) (today : N) (user_id : Z) :
  is_Some (history_lines w (user_id, today)) ->
  count_today today user_id w = (inr (daily_count w (user_id, today)), w).
Proof. intros [lines Hl]. now rewrite count_today_spec, Hl. Qed.

Lemma enforce_spec (w : World) (today : N) (user_id daily_limit : Z) :
  enforce_daily_limit today user_id daily_limit w =
  match history_lines w (user_id, today) with
  | None => (inl UnicodeDecodeError, w)
  | Some _ =>
      if daily_count w (user_id, today) >=? daily_limit
      then (inl (HTTPException 429 (limit_detail daily_limit)),
            logged (EvLog WARNING "daily_limit_exceeded") w)
      else (inr tt, w)
  end.
Proof.
  unfold enforce_daily_limit. unfold bind at 1. rewrite count_today_spec.
  destruct (history_lines w (user_id, today)); [|reflexivity].
  destruct (_ >=? daily_limit); reflexivity.
Qed.

(** What [_inc_usage] does to the counter file.  Only that file can
    change.  It is left as it was when its text does not read as a
    number, left empty when [str] refuses the new count, and holds the
    new count otherwise. *)
Lemma inc_usage_spec (w : World) (user_id : Z) (for_date : N) :
  let k := (user_id, for_date) in
  let raw := default [] (usage_files w !! k) in
  exists w' res,
    _inc_usage user_id for_date w = (res, w')
    /\ history_files w' = history_files w /\ daily_cache w' = daily_cache w
    /\ ledger_only w w'
    /\ match counter_parse raw with
       | None =>
           (res = inl UnicodeDecodeError \/ exists msg, res = inl (ValueError msg))
           /\ usage_files w' = usage_files w
       | Some count =>
           match py_str_limited (count + 1) with
           | Some digits =>
               res = inr tt /\ usage_files w' = <[k := digits]> (usage_files w)
           | None =>
               (exists msg, res = inl (ValueError msg))
               /\ usage_files w' = <[k := []]> (usage_files w)
           end
       end.
Proof.
  intros k raw. unfold _inc_usage. fold k. unfold bind at 1. unfold get at 1.
  fold raw. unfold bind at 1. unfold set_usage at 1.
  unfold bind at 1. unfold or_raise at 1. unfold counter_parse.
  assert (Hid : counter_parse raw = None -> <[k := raw]> (usage_files w) = usage_files w).
  { intros Hp. subst raw. destruct (usage_files w !! k) as [r|] eqn:Er; simpl in *.
    - now apply insert_id.
    - discriminate. }
  unfold counter_parse in Hid.
  destruct (utf8_decode raw) as [text|]; cbn [mbind option_bind] in *.
  2:{ eexists _, _. split; [reflexivity|]. cbn. unfold ledger_only. cbn.
      rewrite (Hid eq_refl). intuition eauto. }
  unfold bind at 1. unfold or_raise at 1.
  destruct (int_or_zero (strip (read_text text))) as [count|].
  2:{ eexists _, _. split; [reflexivity|]. cbn. unfold ledger_only. cbn.
      rewrite (Hid eq_refl). intuition eauto. }
  unfold bind at 1. unfold set_usage at 1.
  unfold bind at 1. unfold or_raise at 1.
  destruct (py_str_limited (count + 1)) as [digits|] eqn:Ed.
  2:{ eexists _, _. split; [reflexivity|]. cbn. unfold ledger_only. cbn.
      rewrite insert_insert_eq. intuition eauto. }
  apply py_str_limited_some in Ed. subst digits.
  unfold bind at 1. unfold or_raise at 1.
  rewrite (utf8_encode_ascii _ (ascii_py_str (count + 1))).
  eexists _, _. split; [reflexivity|]. cbn. unfold ledger_only. cbn.
  rewrite !insert_insert_eq. intuition eauto.
Qed.

(** What [append_history_entry] does.  A record that cannot be encoded
    raises before anything is written (the history file now exists);
    otherwise there is one line more in the history file, one more in
    the cache, and the counter file is as [_inc_usage] leaves it. *)
Lemma append_spec (w : World) (today : N) (fresh_uuid now_stamp : pystr)
    (user_id : Z) (entry : Entry) :
  let k := (user_id, today) in
  let line := json_dumps (with_id_and_timestamp fresh_uuid now_stamp entry) in
  let old := default [] (history_files w !! k) in
  let raw := default [] (usage_files w !! k) in
  exists w' res,
    append_history_entry today fresh_uuid now_stamp user_id entry w = (res, w')
    /\ ledger_only w w'
    /\ match utf8_encode (line ++ [LF]) with
       | None =>
           res = inl UnicodeEncodeError
           /\ history_files w' = <[k := old]> (history_files w)
           /\ daily_cache w' = daily_cache w /\ usage_files w' = usage_files w
       | Some written =>
           history_files w' = <[k := old ++ written]> (history_files w)
           /\ daily_cache w' = <[k := cached w k + 1]> (daily_cache w)
           /\ match counter_parse raw with
              | None =>
                  (res = inl UnicodeDecodeError \/ exists msg, res = inl (ValueError msg))
                  /\ usage_files w' = usage_files w
              | Some count =>
                  match py_str_limited (count + 1) with
                  | Some digits =>
                      (exists entry_id, res = inr entry_id)
                      /\ usage_files w' = <[k := digits]> (usage_files w)
                  | None =>
                      (exists msg, res = inl (ValueError msg))
                      /\ usage_files w' = <[k := []]> (usage_files w)
                  end
              end
       end.
Proof.
  intros k line old raw. unfold append_history_entry.
  fold k. fold line. unfold bind at 1. unfold get at 1.
  fold old. unfold bind at 1. unfold set_history at 1.
  unfold bind at 1. unfold or_raise at 1.
  destruct (utf8_encode (line ++ [LF])) as [written|].
  2:{ eexists _, _. split; [reflexivity|]. cbn. unfold ledger_only. cbn. tauto. }
  unfold bind at 1. unfold set_history at 1.
  unfold bind at 1. unfold get at 1. cbn [daily_cache].
  unfold bind at 1. unfold set_cache at 1. cbn [history_files usage_files daily_cache
    index_files chunk_files upload_files documents_db doc_id_counter task_queue trace].
  unfold bind at 1.
  match goal with |- context [_inc_usage user_id today ?w1] => set (w1' := w1) end.
  destruct (inc_usage_spec w1' user_id today)
    as (w' & res & Hrun & Hh & Hc & Hl & Hcase).
  change (usage_files w1') with (usage_files w) in Hcase. fold k in Hcase. fold raw in Hcase.
  rewrite Hrun.
  assert (Hl' : ledger_only w w').
  { unfold ledger_only in *. subst w1'. cbn in Hl. exact Hl. }
  assert (Hh' : history_files w' = <[k := old ++ written]> (history_files w)).
  { rewrite Hh. subst w1'. cbn. now rewrite insert_insert_eq. }
  assert (Hc' : daily_cache w' = <[k := cached w k + 1]> (daily_cache w)).
  { rewrite Hc. subst w1'. reflexivity. }
  destruct (counter_parse raw) as [count|].
  - destruct (py_str_limited (count + 1)) as [digits|].
    + destruct Hcase as [-> Hu]. exists w'. eexists. split; [reflexivity|]. eauto 10.
    + destruct Hcase as [[msg ->] Hu]. exists w'. eexists. split; [reflexivity|]. eauto 10.
  - destruct Hcase as [[-> | [msg ->]] Hu]; exists w'; eexists;
      (split; [reflexivity|]); eauto 10.
Qed.

End WithBackend.
End LedgerFacts.

Module RagFacts.
Import PyText Core Ledger Rag Props PyTextFacts CodecFacts LineFacts LedgerFacts.

Section WithBackend.
Context `{Backend}.

Lemma same_stores_refl (w : World) : same_stores w w.
Proof. unfold same_stores. tauto. Qed.

Lemma same_stores_trans (w1 w2 w3 : World) :
  same_stores w1 w2 -> same_stores w2 w3 -> same_stores w1 w3.
Proof. unfold same_stores. intuition congruence. Qed.

Lemma same_stores_logged (e : Event) (w : World) : same_stores w (logged e w).
Proof. unfold same_stores, logged, emit. simpl. tauto. Qed.

Lemma trace_logged (e : Event) (w : World) : trace (logged e w) = trace w ++ [e].
Proof. reflexivity. Qed.

(** Asking about a document with no index file. *)
Lemma context_missing_index (w : World) (question : pystr) (doc_id : Z) :
  index_files w !! doc_id = None ->
  get_relevant_context question doc_id w =
  (inl (HTTPException 404 (lit "Knowledge base not found")),
   logged (EvIndexProbe doc_id) w).
Proof.
  intros Hix. unfold get_relevant_context, load_faiss_index. run_m. now rewrite Hix.
Qed.

(** Asking about a document whose index file is there, when embedding
    and search both answer: the outcome is the one of reading the chunk
    file. *)
Lemma context_found (w : World) (question : pystr) (doc_id : Z)
    (ix : Index) (v : Vec) (positions : list Z) :
  index_files w !! doc_id = Some ix ->
  make_query_vector question (index_d ix) = inr v ->
  index_search ix v 3 = inr positions ->
  get_relevant_context question doc_id w =
  (match chunks_of_file (chunk_files w !! doc_id) with
   | inr chunks => inr (select_chunks chunks positions, positions)
   | inl e => inl e
   end,
   logged (EvChunksRead doc_id) (logged (EvSearch doc_id) (logged (EvEmbed question)
     (logged (EvIndexRead doc_id) (logged (EvIndexProbe doc_id) w))))).
Proof.
  intros Hix Hv Hs. unfold get_relevant_context, load_faiss_index, get_chunks_for_doc.
  run_m. rewrite Hix. simpl. rewrite Hv. simpl. rewrite Hs. simpl.
  now destruct (chunks_of_file (chunk_files w !! doc_id)).
Qed.

Lemma context_stores (w w' : World) (question : pystr) (doc_id : Z)
    (res : Exn + list pystr * list Z) :
  get_relevant_context question doc_id w = (res, w') -> same_stores w w'.
Proof.
  unfold get_relevant_context, load_faiss_index, get_chunks_for_doc. run_m.
  destruct (index_files w !! doc_id) as [ix|]; simpl.
  - destruct (make_query_vector question (index_d ix)) as [e|v]; simpl.
    + intros [= <- <-]. unfold same_stores. simpl. tauto.
    + destruct (index_search ix v 3) as [e|positions]; simpl.
      * intros [= <- <-]; unfold same_stores; simpl; tauto.
      * destruct (chunks_of_file (chunk_files w !! doc_id)); simpl;
          intros [= <- <-]; unfold same_stores; simpl; tauto.
  - intros [= <- <-]. unfold same_stores. simpl. tauto.
Qed.

(** A call when the day's history file cannot be read. *)
Lemma ask_unreadable (w : World) (today : N) (fresh_uuid now_stamp : pystr)
    (daily_limit doc_id : Z) (question : pystr) (user_id : Z) :
  history_lines w (user_id, today) = None ->
  ask_question today fresh_uuid now_stamp daily_limit doc_id question user_id w =
  (inl UnicodeDecodeError, w).
Proof.
  intros Hl. unfold ask_question. unfold bind at 1. now rewrite enforce_spec, Hl.
Qed.

(** A call at or over the limit. *)
Lemma ask_blocked (w : World) (today : N) (fresh_uuid now_stamp : pystr)
    (daily_limit doc_id : Z) (question : pystr) (user_id count : Z) :
  count_today today user_id w = (inr count, w) ->
  daily_limit <= count ->
  ask_question today fresh_uuid now_stamp daily_limit doc_id question user_id w =
  (QuotaExceeded daily_limit, logged (EvLog WARNING "daily_limit_exceeded") w).
Proof.
  intros (_ & [lines Hl] & ->)%count_today_returns Hc.
  unfold ask_question. unfold bind at 1. rewrite enforce_spec, Hl.
  destruct (Z.geb_spec (daily_count w (user_id, today)) daily_limit); [reflexivity|lia].
Qed.

(** A call under the limit, by what retrieval and the append give. *)
Lemma ask_passed (w : World) (today : N) (fresh_uuid now_stamp : pystr)
    (daily_limit doc_id : Z) (question : pystr) (user_id count : Z) :
  count_today today user_id w = (inr count, w) ->
  count < daily_limit ->
  ask_question today fresh_uuid now_stamp daily_limit doc_id question user_id w =
  match utf8_encode question with
  | None => (inl UnicodeEncodeError, w)
  | Some _ =>
      match get_relevant_context question doc_id w with
      | (inl e, w2) => (inl e, w2)
      | (inr ([], _), w2) => (NoContext, logged (EvLog INFO "retrieval_done") w2)
      | (inr (c :: cs, indices), w2) =>
          match append_history_entry today fresh_uuid now_stamp user_id
                  (entry_for user_id doc_id question (c :: cs) indices)
                  (logged (EvLog INFO "answer_generated")
                     (logged (EvLog INFO "retrieval_done") w2)) with
          | (inr _, w3) => (inr (answer_response question (c :: cs)), w3)
          | (inl e, w3) => (inl e, w3)
          end
      end
  end.
Proof.
  intros (_ & [lines Hl] & ->)%count_today_returns Hc.
  unfold ask_question. unfold bind at 1. rewrite enforce_spec, Hl.
  destruct (Z.geb_spec (daily_count w (user_id, today)) daily_limit); [lia|].
  unfold bind at 1. unfold or_raise at 1.
  destruct (utf8_encode question) as [qb|]; [|reflexivity].
  unfold bind at 1.
  destruct (get_relevant_context question doc_id w) as [[e|[chunks indices]] w2];
    [reflexivity|].
  destruct chunks as [|c cs]; [reflexivity|].
  reflexivity.
Qed.

(** The three ways a call can go at the quota check. *)
Lemma ask_cases (w : World) (today : N) (user_id daily_limit : Z) :
  history_lines w (user_id, today) = None
  \/ (exists count, count_today today user_id w = (inr count, w) /\ daily_limit <= count)
  \/ (exists count, count_today today user_id w = (inr count, w) /\ count < daily_limit).
Proof.
  destruct (history_lines w (user_id, today)) as [lines|] eqn:Hl; [right|now left].
  pose proof (count_today_readable w today user_id ltac:(rewrite Hl; eauto)) as Hc.
  destruct (Z.le_gt_cases daily_limit (daily_count w (user_id, today)));
    [left|right]; eexists; split; eauto; lia.
Qed.

End WithBackend.
End RagFacts.

Module QuotaFacts.
Import PyText Core Ledger Rag Props PyTextFacts CodecFacts LineFacts LedgerFacts RagFacts.

Section WithBackend.
Context `{Backend}.

Lemma history_text_default (w : World) (k : ukey) :
  history_text w k = utf8_decode (default [] (history_files w !! k)).
Proof. unfold history_text. now destruct (history_files w !! k). Qed.

Lemma stored_usage_default (w : World) (k : ukey) :
  stored_usage w k = counter_value (default [] (usage_files w !! k)).
Proof. unfold stored_usage. now destruct (usage_files w !! k). Qed.

Lemma stored_usage_parsed (w : World) (k : ukey) (count : Z) :
  counter_parse (default [] (usage_files w !! k)) = Some count ->
  stored_usage w k = count.
Proof. rewrite stored_usage_default. unfold counter_value. now intros ->. Qed.

(** The counter [str] wrote denotes the number written. *)
Lemma counter_parse_written (z : Z) (digits : pystr) :
  py_str_limited z = Some digits -> counter_parse digits = Some z.
Proof.
  intros Hd. unfold counter_parse.
  rewrite utf8_decode_ascii
    by (rewrite (py_str_limited_some z digits Hd); apply ascii_py_str).
  cbn [mbind option_bind]. now apply read_back_py_str.
Qed.

Lemma after_logs (w2 w0 : World) :
  w0 = logged (EvLog INFO "answer_generated") (logged (EvLog INFO "retrieval_done") w2) ->
  history_files w0 = history_files w2 /\ usage_files w0 = usage_files w2
  /\ daily_cache w0 = daily_cache w2.
Proof. intros ->. now unfold logged, emit. Qed.

(** The history file after one more encoded line. *)
Lemma history_appended (w w' : World) (k : ukey) (line : pystr) (written : bytes) :
  utf8_encode (line ++ [LF]) = Some written ->
  no_newline line = true ->
  history_files w' = <[k := default [] (history_files w !! k) ++ written]> (history_files w) ->
  whole_lines w k ->
  history_lines w' k = (fun lines => lines ++ [line ++ [LF]]) <$> history_lines w k
  /\ file_count w' k = file_count w k + 1
  /\ whole_lines w' k.
Proof.
  intros Henc Hline Hh (text & Htext & Hterm).
  assert (Htext' : history_text w' k = Some (text ++ line ++ [LF])).
  { rewrite history_text_default, Hh, lookup_insert_eq.
    change (default [] (Some ?x)) with x.
    apply utf8_decode_app; [now rewrite <- history_text_default|].
    now apply utf8_round_trip. }
  assert (Hlines : history_lines w' k
                   = (fun lines => lines ++ [line ++ [LF]]) <$> history_lines w k).
  { unfold history_lines. rewrite Htext', Htext. cbn [fmap option_fmap option_map].
    now rewrite readlines_append. }
  split; [exact Hlines|]. split.
  - unfold file_count. rewrite Hlines. unfold history_lines. rewrite Htext.
    cbn [fmap option_fmap option_map default from_option id]. rewrite length_app.
    simpl. lia.
  - exists (text ++ line ++ [LF]). split; [exact Htext'|].
    rewrite app_assoc. apply terminated_snoc.
Qed.

(** The ledger entries of every other user and day are left alone by
    [ask_question], whatever its outcome. *)
Lemma ask_other_keys (w w' : World) (today : N) (fresh_uuid now_stamp : pystr)
    (daily_limit doc_id : Z) (question : pystr) (user_id : Z) (r : Exn + Response)
    (k' : ukey) :
  ask_question today fresh_uuid now_stamp daily_limit doc_id question user_id w = (r, w') ->
  k' <> (user_id, today) ->
  history_files w' !! k' = history_files w !! k'
  /\ usage_files w' !! k' = usage_files w !! k'
  /\ daily_cache w' !! k' = daily_cache w !! k'.
Proof.
  intros Hask Hk.
  destruct (ask_cases w today user_id daily_limit)
    as [Hbad | [(count & Hcount & Hc) | (count & Hcount & Hc)]].
  - rewrite (ask_unreadable _ _ _ _ _ _ _ _ Hbad) in Hask. now injection Hask as _ <-.
  - rewrite (ask_blocked _ _ _ _ _ _ _ _ _ Hcount Hc) in Hask. injection Hask as _ <-.
    now unfold logged, emit.
  - rewrite (ask_passed _ _ _ _ _ _ _ _ _ Hcount Hc) in Hask.
    destruct (utf8_encode question) as [qb|]; [|now injection Hask as _ <-].
    destruct (get_relevant_context question doc_id w) as [[e|[chunks indices]] w2] eqn:Eg;
      apply context_stores in Eg as (Hh & Hu & Hd & _).
    + injection Hask as _ <-. now rewrite Hh, Hu, Hd.
    + destruct chunks as [|c cs].
      * injection Hask as _ <-. unfold logged, emit. simpl. now rewrite Hh, Hu, Hd.
      * match type of Hask with context [append_history_entry _ _ _ _ ?e ?w0] =>
          destruct (after_logs w2 w0 eq_refl) as (Hh0 & Hu0 & Hd0);
          destruct (append_spec w0 today fresh_uuid now_stamp user_id e)
            as (w3 & res & Happ & _ & Hcase)
        end.
        rewrite Happ in Hask.
        assert (w' = w3) as -> by (destruct res; now injection Hask).
        rewrite Hh0, Hu0, Hd0, Hh, Hu, Hd in Hcase.
        destruct (utf8_encode _) in Hcase.
        -- destruct Hcase as (-> & -> & Hcase).
           rewrite !lookup_insert_ne by congruence.
           split; [reflexivity|]. split; [|reflexivity].
           destruct (counter_parse _) in Hcase.
           ++ destruct (py_str_limited _) in Hcase; destruct Hcase as [_ ->];
                now rewrite lookup_insert_ne by congruence.
           ++ now destruct Hcase as [_ ->].
        -- destruct Hcase as (_ & -> & -> & ->).
           now rewrite lookup_insert_ne by congruence.
Qed.

(** An answered call was under the limit, and adds exactly one to each
    of the three sources of the daily count; it leaves the history file
    made of whole lines. *)
Lemma ask_success_step (w w' : World) (today : N) (fresh_uuid now_stamp : pystr)
    (daily_limit doc_id : Z) (question : pystr) (user_id : Z) (r : Exn + Response) :
  let k := (user_id, today) in
  ask_question today fresh_uuid now_stamp daily_limit doc_id question user_id w = (r, w') ->
  succeeded r = true ->
  stored_usage w' k = stored_usage w k + 1
  /\ cached w' k = cached w k + 1
  /\ (whole_lines w k -> file_count w' k = file_count w k + 1 /\ whole_lines w' k).
Proof.
  intros k Hask Hok.
  destruct (ask_cases w today user_id daily_limit)
    as [Hbad | [(count & Hcount & Hc) | (count & Hcount & Hc)]].
  { rewrite (ask_unreadable _ _ _ _ _ _ _ _ Hbad) in Hask.
    injection Hask as <- _. discriminate. }
  { rewrite (ask_blocked _ _ _ _ _ _ _ _ _ Hcount Hc) in Hask.
    injection Hask as <- _. discriminate. }
  rewrite (ask_passed _ _ _ _ _ _ _ _ _ Hcount Hc) in Hask.
  destruct (utf8_encode question) as [qb|]; [|injection Hask as <- _; discriminate].
  destruct (get_relevant_context question doc_id w) as [[e|[chunks indices]] w2] eqn:Eg;
    apply context_stores in Eg as (Hh & Hu & Hd & _).
  { injection Hask as <- _. discriminate. }
  destruct chunks as [|c cs].
  { injection Hask as <- _. discriminate. }
  match type of Hask with context [append_history_entry _ _ _ _ ?e ?w0] =>
    destruct (after_logs w2 w0 eq_refl) as (Hh0 & Hu0 & Hd0);
    destruct (append_spec w0 today fresh_uuid now_stamp user_id e)
      as (w3 & res & Happ & _ & Hcase);
    set (line := json_dumps (with_id_and_timestamp fresh_uuid now_stamp e)) in *
  end.
  rewrite Happ in Hask. fold k in Hcase. unfold cached in Hcase.
  rewrite Hh0, Hu0, Hd0, Hh, Hu, Hd in Hcase.
  destruct (utf8_encode (line ++ [LF])) as [written|] eqn:Eline.
  2:{ destruct Hcase as (-> & _). injection Hask as <- _. discriminate. }
  destruct Hcase as (Hh3 & Hd3 & Hcase).
  destruct (counter_parse (default [] (usage_files w !! k))) as [n|] eqn:Ecount.
  2:{ destruct Hcase as [[-> | [msg ->]] _]; injection Hask as <- _; discriminate. }
  destruct (py_str_limited (n + 1)) as [digits|] eqn:Edigits.
  2:{ destruct Hcase as [[msg ->] _]. injection Hask as <- _. discriminate. }
  destruct Hcase as [[entry_id ->] Hu3]. injection Hask as _ <-.
  split; [|split].
  - rewrite (stored_usage_parsed w k n Ecount).
    unfold stored_usage. rewrite Hu3, lookup_insert_eq.
    unfold counter_value. now rewrite (counter_parse_written _ _ Edigits).
  - unfold cached. now rewrite Hd3, lookup_insert_eq.
  - intros Hwl.
    destruct (history_appended w w3 k line written Eline
                (no_newline_json_dumps _) Hh3 Hwl) as (_ & Hf & Hw).
    now split.
Qed.

Lemma fresh_counts (w : World) (k : ukey) :
  fresh w k ->
  file_count w k = 0 /\ cached w k = 0 /\ stored_usage w k = 0 /\ whole_lines w k
  /\ history_lines w k = Some [].
Proof.
  intros (Hh & Hu & Hd).
  unfold file_count, cached, stored_usage, whole_lines, history_lines, history_text.
  rewrite Hh, Hu, Hd. repeat split. exists []. now split.
Qed.

Lemma whole_lines_readable (w : World) (k : ukey) :
  whole_lines w k -> is_Some (history_lines w k).
Proof. intros (text & Ht & _). unfold history_lines. rewrite Ht. eauto. Qed.

Lemma run_asks_cons (today : N) (daily_limit user_id : Z) (q : Request)
    (rest : list Request) (w : World) :
  let a := ask_question today (q_uuid q) (q_stamp q) daily_limit
             (q_doc_id q) (q_question q) user_id w in
  run_asks today daily_limit user_id (q :: rest) w =
  (fst a :: fst (run_asks today daily_limit user_id rest (snd a)),
   snd (run_asks today daily_limit user_id rest (snd a))).
Proof.
  simpl. destruct (ask_question _ _ _ _ _ _ _ w) as [r w1]. simpl.
  now destruct (run_asks today daily_limit user_id rest w1).
Qed.

(** After a run of answered calls, each source of the count has grown
    by the number of calls. *)
Lemma run_asks_counts (today : N) (daily_limit user_id : Z) (reqs : list Request)
    (w : World) :
  let k := (user_id, today) in
  let rw := run_asks today daily_limit user_id reqs w in
  whole_lines w k ->
  forallb succeeded (fst rw) = true ->
  stored_usage (snd rw) k = stored_usage w k + Z.of_nat (length reqs)
  /\ cached (snd rw) k = cached w k + Z.of_nat (length reqs)
  /\ file_count (snd rw) k = file_count w k + Z.of_nat (length reqs)
  /\ whole_lines (snd rw) k.
Proof.
  intros k. revert w. induction reqs as [|q rest IH]; intros w rw Hwl Hok.
  - simpl. repeat split; try lia. exact Hwl.
  - subst rw. rewrite run_asks_cons in Hok |- *. cbn [fst snd] in Hok |- *.
    cbn [forallb] in Hok. apply andb_true_iff in Hok as [Hok1 Hok2].
    destruct (ask_question today (q_uuid q) (q_stamp q) daily_limit (q_doc_id q)
                (q_question q) user_id w) as [r w1] eqn:Eask.
    cbn [fst snd] in *.
    destruct (ask_success_step _ _ _ _ _ _ _ _ _ _ Eask Hok1) as (Hu & Hc & Hf).
    destruct (Hf Hwl) as [Hf1 Hwl1].
    destruct (IH w1 Hwl1 Hok2) as (Hu2 & Hc2 & Hf2 & Hwl2).
    fold k in Hu, Hc, Hf1.
    rewrite Hu2, Hc2, Hf2, Hu, Hc, Hf1.
    change (length (q :: rest)) with (S (length rest)).
    repeat split; try lia. exact Hwl2.
Qed.

Lemma run_asks_other_keys (today : N) (daily_limit user_id : Z) (reqs : list Request)
    (w : World) (k' : ukey) :
  k' <> (user_id, today) ->
  let w' := snd (run_asks today daily_limit user_id reqs w) in
  history_files w' !! k' = history_files w !! k'
  /\ usage_files w' !! k' = usage_files w !! k'
  /\ daily_cache w' !! k' = daily_cache w !! k'.
Proof.
  intros Hk. revert w. induction reqs as [|q rest IH]; intros w w'.
  - now subst w'.
  - subst w'. rewrite run_asks_cons. cbn [snd].
    destruct (ask_question today (q_uuid q) (q_stamp q) daily_limit (q_doc_id q)
                (q_question q) user_id w) as [r w1] eqn:Eask.
    cbn [snd].
    destruct (ask_other_keys _ _ _ _ _ _ _ _ _ _ k' Eask Hk) as (Hh & Hu & Hd).
    destruct (IH w1) as (Hh2 & Hu2 & Hd2).
    now rewrite Hh2, Hu2, Hd2, Hh, Hu, Hd.
Qed.

End WithBackend.

(** C1. Quota invariant.  Starting with nothing recorded for the user on
    the day, run N calls of [ask_question] that all return a 200 answer.
    Every answered call adds exactly one to the persisted counter; after
    the N calls [count_today] is N and the counter file holds N; any call
    made when the count has reached the limit raises the 429 exception
    (so with a limit of N the next call is refused); and on another day
    for which nothing is recorded the count is 0. *)
Theorem quota_invariant `{Backend} (today : N) (daily_limit user_id : Z)
    (reqs : list Request) (w : World) :
  let k := (user_id, today) in
  let rw := run_asks today daily_limit user_id reqs w in
  fresh w k ->
  forallb succeeded (fst rw) = true ->
  (forall w0 w1 r fresh_uuid now_stamp doc_id question,
      ask_question today fresh_uuid now_stamp daily_limit doc_id question user_id w0
        = (r, w1) ->
      succeeded r = true ->
      stored_usage w1 k = stored_usage w0 k + 1)
  /\ count_today today user_id (snd rw) = (inr (Z.of_nat (length reqs)), snd rw)
  /\ stored_usage (snd rw) k = Z.of_nat (length reqs)
  /\ (forall w0 count fresh_uuid now_stamp doc_id question,
        count_today today user_id w0 = (inr count, w0) ->
        daily_limit <= count ->
        fst (ask_question today fresh_uuid now_stamp daily_limit doc_id question
               user_id w0) = QuotaExceeded daily_limit)
  /\ (daily_limit <= Z.of_nat (length reqs) ->
      forall fresh_uuid now_stamp doc_id question,
        fst (ask_question today fresh_uuid now_stamp daily_limit doc_id question
               user_id (snd rw)) = QuotaExceeded daily_limit)
  /\ (forall next_day, next_day <> today -> fresh w (user_id, next_day) ->
        count_today next_day user_id (snd rw) = (inr 0, snd rw)).
Proof.
  intros k rw Hfresh Hok.
  destruct (fresh_counts w k Hfresh) as (Hf0 & Hc0 & Hu0 & Hwl & _).
  destruct (run_asks_counts today daily_limit user_id reqs w Hwl Hok)
    as (Hu & Hc & Hf & Hwl').
  fold k in Hu, Hc, Hf, Hwl'. fold rw in Hu, Hc, Hf, Hwl'.
  rewrite Hu0 in Hu. rewrite Hc0 in Hc. rewrite Hf0 in Hf.
  assert (Hcount : count_today today user_id (snd rw)
                   = (inr (Z.of_nat (length reqs)), snd rw)).
  { rewrite count_today_readable by now apply whole_lines_readable.
    fold k. unfold daily_count. rewrite Hu, Hc, Hf. do 2 f_equal. lia. }
  split; [|split; [|split; [|split; [|split]]]].
  - intros w0 w1 r fresh_uuid now_stamp doc_id question Hask Hr.
    now destruct (ask_success_step _ _ _ _ _ _ _ _ _ _ Hask Hr) as [Hs _].
  - exact Hcount.
  - rewrite Hu. lia.
  - intros w0 count fresh_uuid now_stamp doc_id question Hc0' Hlim.
    now rewrite (ask_blocked _ _ _ _ _ _ _ _ _ Hc0' Hlim).
  - intros Hlim fresh_uuid now_stamp doc_id question.
    now rewrite (ask_blocked _ _ _ _ _ _ _ _ _ Hcount Hlim).
  - intros next_day Hne Hfresh'.
    assert (Hk : (user_id, next_day) <> (user_id, today)) by congruence.
    destruct (run_asks_other_keys today daily_limit user_id reqs w _ Hk)
      as (Hh' & Hu' & Hd').
    fold rw in Hh', Hu', Hd'.
    destruct Hfresh' as (Hh0' & Hu0' & Hd0').
    assert (Hfr : fresh (snd rw) (user_id, next_day)).
    { unfold fresh. now rewrite Hh', Hu', Hd'. }
    destruct (fresh_counts _ _ Hfr) as (A & B & C & _ & D).
    rewrite count_today_spec, D. unfold daily_count. rewrite A, B, C. reflexivity.
Qed.

(** The two calls of the daily-limit test, on the test's dummy index. *)
Lemma two_answered_calls_then_refused :
  count_today Demo.day1 Demo.alice
    (snd (run_asks Demo.day1 2 Demo.alice [Demo.req1; Demo.req2] Demo.indexed_world))
  = (inr 2, snd (run_asks Demo.day1 2 Demo.alice [Demo.req1; Demo.req2] Demo.indexed_world))
  /\ fst (ask_question Demo.day1 (lit "5f0c") (lit "2021-07-30T10:00:09Z") 2 1
            (lit "Once more?") Demo.alice
            (snd (run_asks Demo.day1 2 Demo.alice [Demo.req1; Demo.req2]
                    Demo.indexed_world)))
     = QuotaExceeded 2.
Proof.
  pose proof (quota_invariant Demo.day1 2 Demo.alice [Demo.req1; Demo.req2]
                Demo.indexed_world) as Hq.
  cbv zeta in Hq.
  assert (Hfresh : fresh Demo.indexed_world (Demo.alice, Demo.day1)).
  { repeat split. }
  assert (Hok : forallb succeeded
                  (fst (run_asks Demo.day1 2 Demo.alice [Demo.req1; Demo.req2]
                          Demo.indexed_world)) = true).
  { vm_compute. reflexivity. }
  destruct (Hq Hfresh Hok) as (_ & Hcount & _ & _ & Hnext & _).
  split; [exact Hcount|].
  apply Hnext. simpl. lia.
Defined.

End QuotaFacts.
Module ChunkFacts.
Import PyText Core Ledger Rag Ingest Props PyTextFacts CodecFacts LineFacts LedgerFacts RagFacts.

Lemma is_prefix_app (p r : pystr) : is_prefix p (p ++ r) = true.
Proof. induction p as [|a p IH]; [reflexivity|]. simpl. now rewrite N.eqb_refl. Qed.

(** Whether [p] starts [s] is decided by the first [length p] characters of [s]. *)
Lemma is_prefix_take (p s : pystr) : is_prefix p s = is_prefix p (take (length p) s).
Proof.
  revert s. induction p as [|a p IH]; intros s; [reflexivity|].
  destruct s as [|b s]; [reflexivity|]. simpl. now rewrite <- IH.
Qed.

Lemma split_go_skip (sep p r : pystr) :
  split_go sep (length p) (p ++ r) = split_go sep 0 r.
Proof. induction p as [|a p IH]; [reflexivity|]. exact IH. Qed.

Lemma split_at_separator (sep r : pystr) :
  sep <> [] -> split sep (sep ++ r) = [] :: split sep r.
Proof.
  destruct sep as [|a sep']; [congruence|]. intros _. unfold split.
  change (split_go (a :: sep') 0 ((a :: sep') ++ r))
    with (if is_prefix (a :: sep') ((a :: sep') ++ r)
          then [] :: split_go (a :: sep') (length (a :: sep') - 1) (sep' ++ r)
          else cons_head a (split_go (a :: sep') 0 (sep' ++ r))).
  rewrite is_prefix_app.
  replace (length (a :: sep') - 1)%nat with (length sep') by (simpl; lia).
  now rewrite split_go_skip.
Qed.

Lemma split_go_no_match (sep : pystr) (a : N) (s : pystr) :
  is_prefix sep (a :: s) = false ->
  split_go sep 0 (a :: s) = cons_head a (split_go sep 0 s).
Proof. intros Hp. simpl split_go. now rewrite Hp. Qed.

Lemma occurs_cons (p : pystr) (a : N) (s : pystr) :
  occurs p (a :: s) = is_prefix p (a :: s) || occurs p s.
Proof. reflexivity. Qed.

(** A chunk followed by the separator is cut off exactly at that
    separator when no separator starts inside the chunk. *)
Lemma split_chunk_then_separator (c r : pystr) :
  occurs CHUNK_SEP (c ++ SEP_HEAD) = false ->
  split CHUNK_SEP (c ++ CHUNK_SEP ++ r) = c :: split CHUNK_SEP r.
Proof.
  induction c as [|a c IH]; intros Hocc.
  - apply (split_at_separator CHUNK_SEP r). discriminate.
  - change ((a :: c) ++ SEP_HEAD) with (a :: (c ++ SEP_HEAD)) in Hocc.
    rewrite occurs_cons in Hocc. apply orb_false_iff in Hocc as [Hp Hocc].
    unfold split in *.
    change ((a :: c) ++ CHUNK_SEP ++ r) with (a :: (c ++ CHUNK_SEP ++ r)).
    rewrite split_go_no_match.
    + now rewrite (IH Hocc).
    + rewrite is_prefix_take. rewrite is_prefix_take in Hp.
      replace (take (length CHUNK_SEP) (a :: c ++ CHUNK_SEP ++ r))
        with (take (length CHUNK_SEP) (a :: c ++ SEP_HEAD)); [exact Hp|].
      change (length CHUNK_SEP) with 5%nat. cbn [take]. f_equal.
      change CHUNK_SEP with (SEP_HEAD ++ [LF]).
      rewrite <- (app_assoc SEP_HEAD), (app_assoc c).
      symmetry. apply take_app_le. rewrite length_app. simpl. lia.
Qed.

Lemma split_without_separator (c : pystr) :
  occurs CHUNK_SEP c = false -> split CHUNK_SEP c = [c].
Proof.
  induction c as [|a c IH]; [reflexivity|]. rewrite occurs_cons.
  intros [Hp Hocc]%orb_false_iff. unfold split in *.
  rewrite split_go_no_match by exact Hp. now rewrite (IH Hocc).
Qed.

(** [split] undoes [join] on a well delimited list of chunks. *)
Lemma split_join (chunks : list pystr) :
  chunks <> [] -> well_delimited chunks = true ->
  split CHUNK_SEP (join CHUNK_SEP chunks) = chunks.
Proof.
  induction chunks as [|c rest IH]; [congruence|]. intros _ Hwd.
  destruct rest as [|c' rest].
  - simpl in *. apply split_without_separator. now apply negb_true_iff.
  - change (well_delimited (c :: c' :: rest))
      with (negb (occurs CHUNK_SEP (c ++ SEP_HEAD)) && well_delimited (c' :: rest)) in Hwd.
    apply andb_true_iff in Hwd as [Hc Hrest]. apply negb_true_iff in Hc.
    change (join CHUNK_SEP (c :: c' :: rest))
      with (c ++ CHUNK_SEP ++ join CHUNK_SEP (c' :: rest)).
    rewrite split_chunk_then_separator by exact Hc.
    now rewrite IH.
Qed.

Lemma join_ends_with_last (sep : pystr) (chunks : list pystr) :
  chunks <> [] -> exists pre, join sep chunks = pre ++ List.last chunks [].
Proof.
  induction chunks as [|c rest IH]; [congruence|]. intros _.
  destruct rest as [|c' rest].
  - now exists [].
  - destruct IH as [pre Hpre]; [discriminate|].
    exists (c ++ sep ++ pre).
    change (join sep (c :: c' :: rest)) with (c ++ sep ++ join sep (c' :: rest)).
    rewrite Hpre. now rewrite <- !app_assoc.
Qed.

Lemma ends_clean_app (pre l : pystr) : ends_clean l = true -> ends_clean (pre ++ l) = true.
Proof.
  intros (t & x & -> & Hx)%ends_clean_snoc.
  unfold ends_clean. rewrite app_assoc, last_snoc. now rewrite Hx.
Qed.

Lemma join_edges (chunks : list pystr) :
  edges_clean chunks = true ->
  starts_clean (join CHUNK_SEP chunks) = true /\ ends_clean (join CHUNK_SEP chunks) = true.
Proof.
  destruct chunks as [|c rest]; [discriminate|]. cbn [edges_clean].
  intros [Hs He]%andb_true_iff. split.
  - destruct c as [|x c]; [discriminate|].
    destruct rest; exact Hs.
  - destruct (join_ends_with_last CHUNK_SEP (c :: rest)) as [pre ->]; [discriminate|].
    now apply ends_clean_app.
Qed.

Lemma join_cr_free (chunks : list pystr) :
  forallb cr_free chunks = true -> cr_free (join CHUNK_SEP chunks) = true.
Proof.
  induction chunks as [|c rest IH]; [reflexivity|]. cbn [forallb].
  intros [Hc Hrest]%andb_true_iff. destruct rest as [|c' rest]; [exact Hc|].
  change (join CHUNK_SEP (c :: c' :: rest))
    with (c ++ CHUNK_SEP ++ join CHUNK_SEP (c' :: rest)).
  rewrite !cr_free_app, Hc, (IH Hrest). reflexivity.
Qed.

(** Reading the text of a chunk file written from well formed chunks. *)
Lemma chunks_of_joined (chunks : list pystr) :
  well_delimited chunks = true -> edges_clean chunks = true ->
  forallb cr_free chunks = true ->
  chunks_of_text (join CHUNK_SEP chunks) = filter (fun c => nonblank c = true) chunks.
Proof.
  intros Hwd Hedges Hcr. unfold chunks_of_text, read_text.
  rewrite (universal_newlines_cr_free _ (join_cr_free _ Hcr)).
  destruct (join_edges _ Hedges) as [Hs He].
  rewrite (strip_clean _ Hs He).
  assert (Hne : chunks <> []) by (destruct chunks; [discriminate|congruence]).
  destruct (join CHUNK_SEP chunks) as [|x j] eqn:Ej; [discriminate|].
  cbn [truthy]. rewrite <- Ej. now rewrite split_join.
Qed.

(** The same, through the bytes of the file. *)
Lemma chunks_of_written (chunks : list pystr) (written : bytes) :
  utf8_encode (join CHUNK_SEP chunks) = Some written ->
  well_delimited chunks = true -> edges_clean chunks = true ->
  forallb cr_free chunks = true ->
  chunks_of_file (Some written) = inr (filter (fun c => nonblank c = true) chunks).
Proof.
  intros Henc Hwd Hedges Hcr. unfold chunks_of_file.
  rewrite (utf8_round_trip _ _ Henc). f_equal. now apply chunks_of_joined.
Qed.

End ChunkFacts.

Module IngestFacts.
Import PyText Core Ledger Rag Ingest Props Demo.
Import PyTextFacts CodecFacts LineFacts LedgerFacts RagFacts ChunkFacts.

Section WithBackend.
Context `{Backend}.

(** [parse_document] only reads, and only the uploaded files. *)
Lemma parse_document_reads (w : World) (file_path : pystr) :
  parse_document file_path w = (fst (parse_document file_path w), w)
  /\ forall e, fst (parse_document file_path (logged e w)) = fst (parse_document file_path w).
Proof.
  unfold parse_document, logged. run_m.
  destruct (pystr_eqb (extension file_path) (lit "pdf")).
  - destruct (upload_files w !! file_path) as [content|]; [|now split].
    now destruct (pdf_extract content).
  - destruct (_ || _); [|now split].
    destruct (upload_files w !! file_path) as [content|]; [|now split].
    now destruct (utf8_decode content).
Qed.

(** The task changes the chunk file and the index file of its document
    and the trace, and nothing else. *)
Lemma task_frame (w : World) (doc_id : Z) (file_path : pystr) :
  let w' := snd (process_document_task doc_id file_path w) in
  documents_db w' = documents_db w /\ history_files w' = history_files w
  /\ usage_files w' = usage_files w /\ daily_cache w' = daily_cache w
  /\ upload_files w' = upload_files w /\ task_queue w' = task_queue w
  /\ doc_id_counter w' = doc_id_counter w.
Proof.
  intros w'. remember (process_document_task doc_id file_path w) as r eqn:Hr.
  subst w'. unfold process_document_task, try_except in Hr.
  unfold bind at 1 in Hr. unfold emit at 1 in Hr. unfold bind at 1 in Hr.
  destruct (parse_document_reads (logged (EvLog INFO "task_started") w) file_path)
    as [Hp _].
  unfold logged, emit in Hp. cbn [snd] in Hp. rewrite Hp in Hr.
  destruct (fst (parse_document file_path _)) as [e|text]; [subst r; now cbn|].
  revert Hr. unfold set_chunks, set_index. run_m.
  destruct (split_text text) as [e|chunks]; [intros ->; now cbn|]. cbn.
  destruct (utf8_encode (join CHUNK_SEP chunks)) as [written|]; [|intros ->; now cbn]. cbn.
  destruct chunks as [|c cs]; [intros ->; now cbn|].
  destruct (embed_documents (c :: cs)) as [e|vectors]; [intros ->; now cbn|]. cbn.
  destruct (build_index vectors) as [e|index]; intros ->; now cbn.
Qed.

(** Once the text is parsed and split, the chunk file holds the encoded
    chunks joined by the separator, whatever happens later in the task;
    it is left empty when the text cannot be encoded. *)
Lemma task_chunk_file (w : World) (doc_id : Z) (file_path text : pystr)
    (chunks : list pystr) :
  fst (parse_document file_path w) = inr text ->
  split_text text = inr chunks ->
  chunk_files (snd (process_document_task doc_id file_path w))
  = <[doc_id := default [] (utf8_encode (join CHUNK_SEP chunks))]> (chunk_files w).
Proof.
  intros Hparse Hsplit.
  remember (process_document_task doc_id file_path w) as r eqn:Hr.
  unfold process_document_task, try_except in Hr.
  unfold bind at 1 in Hr. unfold emit at 1 in Hr. unfold bind at 1 in Hr.
  destruct (parse_document_reads w file_path) as [_ Hlog].
  destruct (parse_document_reads (logged (EvLog INFO "task_started") w) file_path)
    as [Hp _].
  rewrite Hlog, Hparse in Hp.
  unfold logged, emit in Hp. cbn [snd] in Hp. rewrite Hp in Hr.
  revert Hr. unfold set_chunks, set_index. run_m. rewrite Hsplit. cbn.
  destruct (utf8_encode (join CHUNK_SEP chunks)) as [written|]; [|intros ->; now cbn]. cbn.
  destruct chunks as [|c cs]; [intros ->; cbn; apply insert_insert_eq|].
  destruct (embed_documents (c :: cs)) as [e|vectors];
    [intros ->; cbn; apply insert_insert_eq|]. cbn.
  destruct (build_index vectors) as [e|index]; intros ->; cbn; apply insert_insert_eq.
Qed.

Lemma get_chunks_spec (w : World) (doc_id : Z) :
  get_chunks_for_doc doc_id w =
  (chunks_of_file (chunk_files w !! doc_id), logged (EvChunksRead doc_id) w).
Proof. reflexivity. Qed.

End WithBackend.

(** Where the chunk store does round-trip: when the chunks written by
    the ingestion task can be encoded, hold the separator text nowhere
    (also not across a chunk's end and the separator after it), hold no
    carriage return, and the first chunk starts and the last chunk ends
    with a character that is not white space, then reading the chunk
    file back at retrieval time gives the written chunks in the same
    order, without the chunks made only of white space and with every
    other chunk unchanged. *)
Theorem chunk_store_round_trip `{Backend} (w : World) (doc_id : Z)
    (file_path text : pystr) (chunks : list pystr) :
  fst (parse_document file_path w) = inr text ->
  split_text text = inr chunks ->
  encodable (join CHUNK_SEP chunks) ->
  well_delimited chunks = true ->
  edges_clean chunks = true ->
  forallb cr_free chunks = true ->
  fst (get_chunks_for_doc doc_id (snd (process_document_task doc_id file_path w)))
  = inr (filter (fun c => nonblank c = true) chunks).
Proof.
  intros Hparse Hsplit Henc Hwd Hedges Hcr.
  rewrite get_chunks_spec. cbn [fst].
  rewrite (task_chunk_file w doc_id file_path text chunks Hparse Hsplit).
  rewrite lookup_insert_eq. unfold encodable in Henc.
  destruct (utf8_encode (join CHUNK_SEP chunks)) as [written|] eqn:E; [|congruence].
  now apply (chunks_of_written chunks written).
Qed.

(** The uploaded notes: three paragraphs, the blank one is dropped. *)
Lemma notes_read_back_without_blank :
  fst (get_chunks_for_doc 1
         (snd (process_document_task 1 (lit "uploads/1_notes.md") Demo.uploaded_world)))
  = inr [lit "Intro"; lit "Body"].
Proof.
  apply (chunk_store_round_trip Demo.uploaded_world 1 (lit "uploads/1_notes.md")
           Demo.notes_text [lit "Intro"; lit " "; lit "Body"]);
    try (vm_compute; reflexivity).
  vm_compute. discriminate.
Defined.

(** C2, the failing input.  The uploaded Markdown file is a heading
    underlined with three dashes and a paragraph, with no blank line in
    between.  The task succeeds: it writes one chunk and indexes one
    vector.  Reading the chunk file back gives two chunks, neither of
    them the chunk that was written. *)
Lemma ruled_chunk_read_back_as_two :
  let task := process_document_task 1 (lit "uploads/1_readme.md")
                Demo.ruled_uploaded_world in
  fst (parse_document (lit "uploads/1_readme.md") Demo.ruled_uploaded_world)
    = inr Demo.ruled_chunk
  /\ split_text Demo.ruled_chunk = inr [Demo.ruled_chunk]
  /\ fst task = inr true
  /\ index_files (snd task) !! 1 = Some [0]
  /\ chunk_files (snd task) !! 1 = Some (join CHUNK_SEP [Demo.ruled_chunk])
  /\ fst (get_chunks_for_doc 1 (snd task)) = inr [lit "Title"; lit "body"]
  /\ [lit "Title"; lit "body"]
     <> filter (fun c => nonblank c = true) [Demo.ruled_chunk].
Proof.
  repeat split; try (vm_compute; reflexivity); vm_compute; discriminate.
Qed.

(** C5 (as amended).  The ingestion task never touches the document
    record: after an accepted upload the record is ["pending"] with no
    error, and it is still exactly that after the task has run, whether
    the task succeeded or failed; the outcome is only the task's return
    value and its log lines. *)
Theorem ingestion_leaves_record `{Backend} (max_mb : Z) (filename : pystr)
    (content_type : option pystr) (content : list N) (user_id : Z)
    (w w1 : World) (resp : Response) :
  upload_document max_mb filename content_type content user_id w = (inr resp, w1) ->
  let doc_id := doc_id_counter w in
  let record := {| d_id := doc_id; d_filename := filename; d_owner_id := user_id;
                   d_status := "pending"; d_error := None |} in
  documents_db w1 !! doc_id = Some record
  /\ (forall file_path,
        documents_db (snd (process_document_task doc_id file_path w1)) !! doc_id
        = Some record)
  /\ documents_db (snd (worker_run_next w1)) !! doc_id = Some record
  /\ (forall w0 any_doc file_path,
        documents_db (snd (process_document_task any_doc file_path w0)) = documents_db w0).
Proof.
  intros Hup doc_id record.
  assert (Hrec : documents_db w1 !! doc_id = Some record).
  { revert Hup. unfold upload_document, validate_file_upload, validate_file_extension.
    unfold bind, ret, raise, get, emit, set_counter, set_upload, set_document, set_queue.
    cbn.
    repeat match goal with
           | |- context [if ?b then _ else _] => destruct b; cbn
           end; try discriminate;
      destruct (open_upload _ _); cbn; try discriminate;
      intros [= _ <-]; cbn; apply lookup_insert_eq. }
  assert (Hframe : forall w0 any_doc file_path,
             documents_db (snd (process_document_task any_doc file_path w0))
             = documents_db w0).
  { intros w0 any_doc file_path. apply (task_frame w0 any_doc file_path). }
  split; [exact Hrec|]. split; [|split; [|exact Hframe]].
  - intros file_path. now rewrite Hframe.
  - unfold worker_run_next. unfold bind at 1. unfold get at 1.
    destruct (task_queue w1) as [|[d p] rest]; [exact Hrec|].
    unfold bind at 1. unfold set_queue at 1. unfold bind at 1.
    match goal with |- context [process_document_task d p ?w0] =>
      pose proof (Hframe w0 d p) as Hf;
      destruct (process_document_task d p w0) as [[e|ok] w2]
    end; cbn [snd] in *; unfold ret; cbn [snd]; rewrite Hf; exact Hrec.
Qed.

(** The upload of [notes.md], then the worker. *)
Lemma notes_record_still_pending :
  documents_db (snd (worker_run_next Demo.uploaded_world)) !! 1
  = Some {| d_id := 1; d_filename := lit "notes.md"; d_owner_id := Demo.alice;
            d_status := "pending"; d_error := None |}.
Proof.
  refine (proj1 (proj2 (proj2
    (ingestion_leaves_record 25 (lit "notes.md") (Some (lit "text/markdown"))
       Demo.notes_text Demo.alice Demo.empty_world Demo.uploaded_world
       (api_response
          (PDocument {| d_id := 1; d_filename := lit "notes.md";
                        d_owner_id := Demo.alice;
                        d_status := "pending"; d_error := None |})
          (lit "File uploaded successfully. Embedding job triggered.") 201)
       _)))).
  vm_compute. reflexivity.
Defined.

(** C5, counterexample.  The task run on the uploaded notes succeeds,
    and a task run on a path that does not exist fails; after either of
    them the record still says ["pending"] and carries no error. *)
Lemma status_pending_after_task :
  fst (worker_run_next Demo.uploaded_world) = inr (Some true)
  /\ (d_status <$> documents_db (snd (worker_run_next Demo.uploaded_world)) !! 1)
     = Some "pending"%string
  /\ fst (process_document_task 1 (lit "uploads/lost.txt") Demo.uploaded_world)
     = inr false
  /\ ((fun r => (d_status r, d_error r)) <$>
       documents_db (snd (process_document_task 1 (lit "uploads/lost.txt")
                            Demo.uploaded_world)) !! 1)
     = Some ("pending"%string, None).
Proof. repeat split; vm_compute; reflexivity. Qed.

End IngestFacts.

Module HistoryFacts.
Import PyText Core Ledger Rag Props Demo.
Import PyTextFacts CodecFacts LineFacts LedgerFacts RagFacts QuotaFacts.

Section WithBackend.
Context `{Backend}.

(** The loop of [list_history], from any point of its run, over lines
    that [json.loads] takes or rejects as malformed: the items so far,
    then the records parsed from the lines left after the ones still to
    be skipped, cut when the limit is reached. *)
Lemma list_loop_spec (offset limit : Z) (rev_lines : list pystr) :
  Forall loads_or_skips rev_lines ->
  forall (idx : Z) (items : list Json),
    list_loop offset limit idx items rev_lines
    = inr (items ++ take (Z.to_nat (limit - Z.of_nat (length items)))
                      (omap parsed (drop (Z.to_nat (offset - idx)) rev_lines))).
Proof.
  induction 1 as [|line rest Hline _ IH]; intros idx items.
  - simpl. rewrite drop_nil. simpl. rewrite take_nil. now rewrite app_nil_r.
  - cbn [list_loop]. destruct (Z.ltb_spec idx offset) as [Hlt|Hge].
    + rewrite IH.
      replace (Z.to_nat (offset - idx)) with (S (Z.to_nat (offset - (idx + 1)))) by lia.
      reflexivity.
    + replace (Z.to_nat (offset - idx)) with 0%nat by lia. rewrite drop_0.
      destruct (Z.geb_spec (Z.of_nat (length items)) limit) as [Hfull|Hroom].
      * replace (Z.to_nat (limit - Z.of_nat (length items))) with 0%nat by lia.
        simpl. now rewrite app_nil_r.
      * cbn [omap list_omap]. unfold parsed at 1.
        destruct (json_loads line) as [j| |e] eqn:Ej.
        -- rewrite IH. replace (Z.to_nat (offset - (idx + 1))) with 0%nat by lia.
           rewrite drop_0, length_app. simpl length.
           replace (Z.to_nat (limit - Z.of_nat (length items)))
             with (S (Z.to_nat (limit - Z.of_nat (length items + 1)))) by lia.
           simpl. now rewrite <- app_assoc.
        -- rewrite IH. replace (Z.to_nat (offset - (idx + 1))) with 0%nat by lia.
           now rewrite drop_0.
        -- now destruct (Hline e).
Qed.

(** The loop stops with the exception of the first line it loads on
    which [json.loads] raises something else than [JSONDecodeError]. *)
Lemma list_loop_raises (offset limit : Z) (before after : list pystr) (line : pystr)
    (e : Exn) :
  Forall loads_or_skips before ->
  json_loads line = LoadFailed e ->
  forall (idx : Z) (items : list Json),
    offset - idx <= Z.of_nat (length before) ->
    Z.of_nat (length items)
      + Z.of_nat (length (omap parsed (drop (Z.to_nat (offset - idx)) before))) < limit ->
    list_loop offset limit idx items (before ++ line :: after) = inl e.
Proof.
  intros Hbefore Hline. induction Hbefore as [|l rest Hl _ IH]; intros idx items Hoff Hroom.
  - simpl in Hoff. cbn [app list_loop]. rewrite drop_nil in Hroom. simpl in Hroom.
    destruct (Z.ltb_spec idx offset); [lia|].
    destruct (Z.geb_spec (Z.of_nat (length items)) limit); [lia|].
    now rewrite Hline.
  - cbn [app list_loop]. cbn [length] in Hoff.
    destruct (Z.ltb_spec idx offset) as [Hlt|Hge].
    + apply IH; [lia|].
      replace (Z.to_nat (offset - idx)) with (S (Z.to_nat (offset - (idx + 1)))) in Hroom
        by lia.
      exact Hroom.
    + replace (Z.to_nat (offset - idx)) with 0%nat in Hroom by lia.
      rewrite drop_0 in Hroom. cbn [omap list_omap] in Hroom. unfold parsed at 1 in Hroom.
      destruct (Z.geb_spec (Z.of_nat (length items)) limit) as [Hfull|_]; [lia|].
      destruct (json_loads l) as [j| |e'] eqn:Ej.
      * apply IH; [lia|]. replace (Z.to_nat (offset - (idx + 1))) with 0%nat by lia.
        rewrite drop_0, length_app. simpl in Hroom |- *. lia.
      * apply IH; [lia|]. replace (Z.to_nat (offset - (idx + 1))) with 0%nat by lia.
        now rewrite drop_0.
      * now destruct (Hl e').
Qed.

Lemma appended_text_snoc (entries : list Entry) (e : Entry) :
  appended_text (entries ++ [e]) = appended_text entries ++ json_dumps e ++ [LF].
Proof. unfold appended_text. now rewrite foldl_snoc. Qed.

Lemma appended_terminated (entries : list Entry) :
  terminated (appended_text entries) = true.
Proof.
  induction entries as [|e entries _] using rev_ind; [reflexivity|].
  rewrite appended_text_snoc, app_assoc. apply terminated_snoc.
Qed.

(** A file written by appends reads back as one line per record, in
    the order of the appends. *)
Lemma readlines_appended (entries : list Entry) :
  readlines (appended_text entries) = map record_line entries.
Proof.
  induction entries as [|e entries IH] using rev_ind; [reflexivity|].
  rewrite appended_text_snoc, map_app.
  rewrite readlines_append;
    [|apply appended_terminated|apply no_newline_json_dumps].
  now rewrite IH.
Qed.

(** [list_history] on a day whose file can be read and whose lines
    [json.loads] takes or rejects as malformed. *)
Lemma list_history_spec (w : World) (today : N) (user_id : Z) (for_date : option N)
    (offset limit : Z) (lines : list pystr) :
  let day := default today for_date in
  history_lines w (user_id, day) = Some lines ->
  Forall loads_or_skips lines ->
  list_history w today user_id for_date offset limit
  = inr (take (Z.to_nat limit) (omap parsed (drop (Z.to_nat offset) (rev lines))),
         Z.of_nat (length lines), day).
Proof.
  intros day Hlines Hall. unfold list_history. fold day.
  rewrite read_all_lines_spec, Hlines.
  rewrite list_loop_spec by (apply Forall_rev; exact Hall).
  simpl. now rewrite !Z.sub_0_r.
Qed.

(** [list_history] on a day whose file is not UTF-8. *)
Lemma list_history_unreadable (w : World) (today : N) (user_id : Z) (for_date : option N)
    (offset limit : Z) :
  history_lines w (user_id, default today for_date) = None ->
  list_history w today user_id for_date offset limit = inl UnicodeDecodeError.
Proof. intros Hl. unfold list_history. now rewrite read_all_lines_spec, Hl. Qed.

Lemma file_count_nonneg (w : World) (k : ukey) : 0 <= file_count w k.
Proof. unfold file_count. lia. Qed.

End WithBackend.

(** Listing a readable history.  [list_history] returns the records of
    the day's file most recent first: the lines in reverse order, the
    first [offset] of them passed over, the lines [json.loads] rejects
    as malformed left out, and at most [limit] records kept; the total
    is the number of lines of the file, whatever the window.  For a file
    written by appending records one after the other, that is the
    reverse of the order of the appends. *)
Theorem list_history_most_recent_first `{Backend} (w : World) (today : N)
    (user_id : Z) (for_date : option N) (offset limit : Z) :
  let day := default today for_date in
  (forall lines,
      history_lines w (user_id, day) = Some lines ->
      Forall loads_or_skips lines ->
      list_history w today user_id for_date offset limit
      = inr (take (Z.to_nat limit) (omap parsed (drop (Z.to_nat offset) (rev lines))),
             Z.of_nat (length lines), day))
  /\ (forall entries raw,
        appended entries = Some raw ->
        Forall loads_or_skips (map record_line entries) ->
        list_history (snd (set_history (user_id, day) raw w))
          today user_id for_date offset limit
        = inr (take (Z.to_nat limit)
                 (omap parsed (drop (Z.to_nat offset) (rev (map record_line entries)))),
               Z.of_nat (length entries), day)).
Proof.
  intros day. split.
  - intros lines Hlines Hall. now apply list_history_spec.
  - intros entries raw Hraw Hall.
    rewrite (list_history_spec _ today user_id for_date offset limit
               (map record_line entries)); [now rewrite length_map| |exact Hall].
    fold day. unfold history_lines, history_text, set_history. cbn [snd history_files].
    rewrite lookup_insert_eq. unfold appended in Hraw.
    rewrite (utf8_round_trip _ _ Hraw). cbn [fmap option_fmap option_map].
    now rewrite readlines_appended.
Qed.

(** The two answered calls of the daily-limit test, listed. *)
Lemma two_calls_listed_newest_first :
  exists lines,
    history_lines Demo.two_calls_world (Demo.alice, Demo.day1) = Some lines
    /\ list_history Demo.two_calls_world Demo.day1 Demo.alice None 0 20
       = inr (take 20 (omap parsed (rev lines)), 2, Demo.day1).
Proof.
  pose proof (proj1 (list_history_most_recent_first Demo.two_calls_world Demo.day1
                       Demo.alice None 0 20)) as Hl.
  cbv zeta in Hl.
  assert (Hlines : exists lines,
             history_lines Demo.two_calls_world (Demo.alice, Demo.day1) = Some lines
             /\ length lines = 2%nat
             /\ forallb (fun l => match Demo.bracketed l with
                                  | LoadFailed _ => false | _ => true end) lines = true).
  { eexists. split; [vm_compute; reflexivity|]. split; vm_compute; reflexivity. }
  destruct Hlines as (lines & Hlines & Hlen & Hall).
  exists lines. split; [exact Hlines|].
  rewrite (Hl lines Hlines).
  - rewrite Hlen. reflexivity.
  - apply Forall_forall. intros l Hin. rewrite forallb_forall in Hall.
    apply list_elem_of_In in Hin. specialize (Hall l Hin).
    intros e He. change json_loads with Demo.bracketed in He. now rewrite He in Hall.
Defined.

(** C7, the failing input.  After two answered calls, the write of a
    third record stops inside the first accented letter of its question.
    [f.readlines()] then raises [UnicodeDecodeError], which the loop's
    [except json.JSONDecodeError] does not catch: the listing is aborted
    instead of skipping the cut line, and so is [count_today], so that
    every later question of the user on that day ends in the 500
    response.  Had the write stopped one byte earlier, between two
    characters, the cut line would have been skipped and the two whole
    records listed. *)
Lemma cut_record_aborts_listing :
  list_history Demo.two_calls_world Demo.day1 Demo.alice None 0 20
    = inr (omap parsed (rev (default [] (history_lines Demo.two_calls_world
                                           (Demo.alice, Demo.day1)))),
           2, Demo.day1)
  /\ length (omap parsed (rev (default [] (history_lines Demo.two_calls_world
                                             (Demo.alice, Demo.day1))))) = 2%nat
  /\ history_files Demo.crashed_world !! (Demo.alice, Demo.day1)
     = Some (default [] (history_files Demo.two_calls_world !! (Demo.alice, Demo.day1))
             ++ cut_inside Demo.third_record)
  /\ list_history Demo.crashed_world Demo.day1 Demo.alice None 0 20
     = inl UnicodeDecodeError
  /\ fst (count_today Demo.day1 Demo.alice Demo.crashed_world) = inl UnicodeDecodeError
  /\ fst (post_ask Demo.day1 (lit "u-4") (lit "2021-07-30T10:01:00Z") 20 1
            (lit "Hello?") Demo.alice Demo.crashed_world)
     = inr (api_response PNull (lit "Internal server error") 500)
  /\ list_history Demo.crashed_clean_world Demo.day1 Demo.alice None 0 20
     = inr (omap parsed (rev (default [] (history_lines Demo.two_calls_world
                                            (Demo.alice, Demo.day1)))),
            3, Demo.day1).
Proof. repeat split; vm_compute; reflexivity. Qed.

End HistoryFacts.

Module CounterFacts.
Import PyText Core Ledger Rag Props Demo.
Import PyTextFacts CodecFacts LineFacts LedgerFacts RagFacts QuotaFacts HistoryFacts.

(** C8.  When the day's history file can be read, [count_today] answers
    the largest of three numbers: the lines of that file, the cache
    entry of the day (0 when there is none) and the persisted counter-file
    value, that is the integer the counter file denotes (0 when there is
    no file or it denotes none).  So the count is never below the
    history file's or the counter file's number, whatever the cache
    holds.  The world is left as it was. *)
Theorem count_today_is_max `{Backend} (w : World) (today : N) (user_id : Z)
    (text : pystr) :
  let k := (user_id, today) in
  match history_files w !! k with
  | None => text = []
  | Some raw => utf8_decode raw = Some text
  end ->
  let from_file := Z.of_nat (length (readlines text)) in
  let from_cache := default 0 (daily_cache w !! k) in
  let from_counter :=
    match usage_files w !! k with
    | None => 0
    | Some raw =>
        match utf8_decode raw with
        | Some digits => default 0 (int_or_zero (strip (read_text digits)))
        | None => 0
        end
    end in
  count_today today user_id w
    = (inr (Z.max (Z.max from_file from_cache) from_counter), w)
  /\ (forall n, count_today today user_id w = (inr n, w) ->
        from_file <= n /\ from_cache <= n /\ from_counter <= n
        /\ (n = from_file \/ n = from_cache \/ n = from_counter)).
Proof.
  intros k Htext from_file from_cache from_counter.
  assert (Hlines : history_lines w k = Some (readlines text)).
  { unfold history_lines, history_text.
    destruct (history_files w !! k) as [raw|]; [now rewrite Htext|now subst text]. }
  assert (Hcount : count_today today user_id w
                   = (inr (Z.max (Z.max from_file from_cache) from_counter), w)).
  { rewrite count_today_spec. fold k. rewrite Hlines. do 2 f_equal.
    unfold daily_count, file_count, cached, stored_usage, counter_value, counter_parse.
    rewrite Hlines. subst from_file from_cache from_counter.
    cbn [default from_option id]. do 2 f_equal.
    destruct (usage_files w !! k) as [raw|]; [|reflexivity].
    now destruct (utf8_decode raw). }
  split; [exact Hcount|].
  intros n. rewrite Hcount. intros [= <-]. lia.
Qed.

(** Three lines in the history file, 2 in the counter file, nothing in
    the cache: the count is 3. *)
Lemma drifted_count_is_three :
  count_today Demo.day1 Demo.alice Demo.drifted_world = (inr 3, Demo.drifted_world).
Proof.
  refine (proj1 (count_today_is_max Demo.drifted_world Demo.day1 Demo.alice
                   Demo.torn_history _)).
  vm_compute. reflexivity.
Defined.

(** C10 (as amended).  [_read_usage] always returns, and leaves the
    world as it was: 0 when the counter file is not there, 0 when its
    bytes are not UTF-8 or its text does not read as an integer, and
    otherwise the integer the text reads as, which is negative for a
    negative literal; a file holding [str(n)] gives [n] back.  So the
    counter file never makes [count_today] fail: whenever the day's
    history file can be read the count is the largest of the three
    sources, with 0 for a counter file that is missing or unreadable. *)
Theorem read_usage_total `{Backend} (w : World) (user_id : Z) (for_date : N) :
  let k := (user_id, for_date) in
  exists n,
    _read_usage user_id for_date w = (inr n, w)
    /\ (usage_files w !! k = None -> n = 0)
    /\ (forall raw, usage_files w !! k = Some raw ->
          match utf8_decode raw with
          | None => n = 0
          | Some text =>
              match int_or_zero (strip (read_text text)) with
              | Some stored => n = stored
              | None => n = 0
              end
          end)
    /\ (forall stored digits,
          py_str_limited stored = Some digits ->
          usage_files w !! k = Some digits -> n = stored)
    /\ (forall text,
          history_text w k = Some text ->
          count_today for_date user_id w
          = (inr (Z.max (Z.max (Z.of_nat (length (readlines text)))
                           (default 0 (daily_cache w !! k))) n), w)
          /\ (n = 0 ->
              count_today for_date user_id w
              = (inr (Z.max (Z.of_nat (length (readlines text)))
                        (default 0 (daily_cache w !! k))), w))).
Proof.
  intros k. exists (stored_usage w k).
  split; [apply read_usage_spec|]. unfold stored_usage, counter_value, counter_parse.
  split; [now intros ->|]. split; [|split].
  - intros raw ->. destruct (utf8_decode raw) as [text|]; [|reflexivity].
    cbn [mbind option_bind]. now destruct (int_or_zero (strip (read_text text))).
  - intros stored digits Hd ->.
    pose proof (counter_parse_written stored digits Hd) as Hp.
    unfold counter_parse in Hp. now rewrite Hp.
  - intros text Htext.
    assert (Hlines : history_lines w k = Some (readlines text))
      by (unfold history_lines; now rewrite Htext).
    assert (Hcount : count_today for_date user_id w
                     = (inr (Z.max (Z.max (Z.of_nat (length (readlines text)))
                                      (default 0 (daily_cache w !! k)))
                               (stored_usage w k)), w)).
    { rewrite count_today_spec. fold k. rewrite Hlines.
      unfold daily_count, file_count, cached. now rewrite Hlines. }
    unfold stored_usage, counter_value, counter_parse in Hcount.
    split; [exact Hcount|].
    intros Hzero. rewrite Hcount, Hzero. do 2 f_equal. lia.
Qed.

(** A counter file holding ["abc"], no history file: the read gives 0
    and so does the count. *)
Lemma corrupt_counter_reads_zero :
  _read_usage Demo.alice Demo.day1 Demo.corrupt_counter_world
    = (inr 0, Demo.corrupt_counter_world)
  /\ count_today Demo.day1 Demo.alice Demo.corrupt_counter_world
     = (inr 0, Demo.corrupt_counter_world).
Proof.
  destruct (read_usage_total Demo.corrupt_counter_world Demo.alice Demo.day1)
    as (n & Hread & _ & Hraw & _ & Hcount).
  specialize (Hraw (lit "abc") eq_refl).
  assert (Hn : n = 0) by exact Hraw.
  subst n. split; [exact Hread|].
  exact (proj2 (Hcount [] eq_refl) eq_refl).
Defined.

(** C10, counterexample.  A counter file holding ["-5"] parses as an
    integer and is read as -5, which is not a non-negative integer.  And a
    counter file holding ["abc"] is read as 0, yet the request that gets
    as far as recording its answer fails: the increment raises on the
    same file and the caller gets the 500 response. *)
Lemma negative_counter_read_as_negative :
  usage_files Demo.negative_counter_world !! (Demo.alice, Demo.day1) = Some (lit "-5")
  /\ _read_usage Demo.alice Demo.day1 Demo.negative_counter_world
     = (inr (-5), Demo.negative_counter_world)
  /\ ~ (0 <= -5)
  /\ fst (count_today Demo.day1 Demo.alice Demo.negative_counter_world) = inr 0
  /\ fst (_read_usage Demo.alice Demo.day1 Demo.corrupt_counter_world) = inr 0
  /\ fst (post_ask Demo.day1 (lit "u-1") (lit "2021-07-30T10:00:00Z") 20 1
            (lit "Hello?") Demo.alice Demo.corrupt_counter_world)
     = inr (api_response PNull (lit "Internal server error") 500).
Proof.
  split; [reflexivity|]. split; [vm_compute; reflexivity|]. split; [lia|].
  repeat split; vm_compute; reflexivity.
Qed.

End CounterFacts.

Module RagClaims.
Import PyText Core Ledger Rag Props Demo.
Import PyTextFacts CodecFacts LineFacts LedgerFacts RagFacts QuotaFacts.

Lemma select_chunks_none (positions : list Z) : select_chunks [] positions = [].
Proof.
  unfold select_chunks. induction positions as [|i positions IH]; [reflexivity|].
  cbn [flat_map]. rewrite IH, app_nil_r.
  destruct (_ && _); [|reflexivity]. now rewrite lookup_nil.
Qed.

(** C3 (as amended).  For a call under the daily limit, with a question
    that can be encoded: when the document has no index file the call
    raises NotFound, whether or not a chunk file is there; when the index
    file is there and the search answers, but no position it returns
    names a chunk (in particular when the chunk file is absent), the
    call returns NoContext, a response with status 404 and an empty list
    as data, which is not the NotFound exception. *)
Theorem ask_boundaries `{Backend} (w : World) (today : N) (fresh_uuid now_stamp : pystr)
    (daily_limit doc_id : Z) (question : pystr) (user_id count : Z) :
  count_today today user_id w = (inr count, w) ->
  count < daily_limit ->
  encodable question ->
  let result :=
    fst (ask_question today fresh_uuid now_stamp daily_limit doc_id question user_id w) in
  (index_files w !! doc_id = None -> result = NotFound)
  /\ (forall ix v positions,
        index_files w !! doc_id = Some ix ->
        make_query_vector question (index_d ix) = inr v ->
        index_search ix v 3 = inr positions ->
        (forall chunks,
            chunks_of_file (chunk_files w !! doc_id) = inr chunks ->
            select_chunks chunks positions = [] ->
            result = NoContext)
        /\ (chunk_files w !! doc_id = None -> result = NoContext))
  /\ NoContext <> NotFound
  /\ (exists resp, NoContext = inr resp /\ r_data resp = PEmptyList
                   /\ r_status_code resp = 404).
Proof.
  intros Hcount Hc Henc result. subst result.
  rewrite (ask_passed _ _ _ _ _ _ _ _ _ Hcount Hc).
  unfold encodable in Henc.
  destruct (utf8_encode question) as [qb|]; [clear Henc|congruence].
  split; [|split; [|split]].
  - intros Hix. now rewrite (context_missing_index _ _ _ Hix).
  - intros ix v positions Hix Hv Hs.
    rewrite (context_found _ _ _ _ _ _ Hix Hv Hs).
    assert (Hsel : forall chunks,
               chunks_of_file (chunk_files w !! doc_id) = inr chunks ->
               select_chunks chunks positions = [] ->
               fst (let (s, w2) :=
                      (match chunks_of_file (chunk_files w !! doc_id) with
                       | inr chunks => inr (select_chunks chunks positions, positions)
                       | inl e => inl e
                       end,
                       logged (EvChunksRead doc_id) (logged (EvSearch doc_id)
                         (logged (EvEmbed question) (logged (EvIndexRead doc_id)
                           (logged (EvIndexProbe doc_id) w)))))
                    in match s with
                       | inl e => (inl e, w2)
                       | inr ([], _) =>
                           (NoContext, logged (EvLog INFO "retrieval_done") w2)
                       | inr (c :: cs, indices) =>
                           match append_history_entry today fresh_uuid now_stamp
                                   user_id
                                   (entry_for user_id doc_id question (c :: cs) indices)
                                   (logged (EvLog INFO "answer_generated")
                                      (logged (EvLog INFO "retrieval_done") w2))
                           with
                           | (inl e, w3) => (inl e, w3)
                           | (inr _, w3) =>
                               (inr (answer_response question (c :: cs)), w3)
                           end
                       end) = NoContext).
    { intros chunks -> ->. reflexivity. }
    split; [exact Hsel|].
    intros Hch. apply (Hsel []); [now rewrite Hch|apply select_chunks_none].
  - discriminate.
  - eexists. repeat split.
Qed.

(** An index file, no chunk file. *)
Lemma index_without_chunks_no_context :
  fst (ask_question Demo.day1 (lit "u-1") (lit "2021-07-30T10:00:00Z") 20 1
         (lit "Hello?") Demo.alice Demo.index_only_world) = NoContext.
Proof.
  assert (Hcount : count_today Demo.day1 Demo.alice Demo.index_only_world
                   = (inr 0, Demo.index_only_world)) by (vm_compute; reflexivity).
  assert (Henc : encodable (lit "Hello?")) by (vm_compute; discriminate).
  refine (proj2 (proj1 (proj2
    (ask_boundaries Demo.index_only_world Demo.day1 (lit "u-1")
       (lit "2021-07-30T10:00:00Z") 20 1 (lit "Hello?") Demo.alice 0 Hcount _ Henc))
    [0; 1; 2] (lit "Hello?") [0; 1; 2] _ _ _) _);
    first [lia | vm_compute; reflexivity].
Defined.

(** C3, counterexample.  With the index file there and the chunk file
    absent the call does not raise NotFound: it returns NoContext. *)
Lemma index_without_chunks_not_not_found :
  index_files Demo.index_only_world !! 1 = Some [0; 1; 2]
  /\ chunk_files Demo.index_only_world !! 1 = None
  /\ fst (ask_question Demo.day1 (lit "u-1") (lit "2021-07-30T10:00:00Z") 20 1
            (lit "Hello?") Demo.alice Demo.index_only_world) <> NotFound.
Proof.
  repeat split; try (vm_compute; reflexivity).
  vm_compute. discriminate.
Qed.

(** C4 (as amended).  For a call under the limit, with a question that
    can be encoded, whose retrieval gave context: the answer is returned
    when the history append succeeds, and when the append raises,
    [ask_question] raises the same exception and no answer is returned.
    Once the record is written the append raises exactly when the day's
    counter file does not read as an integer that [str] can write back
    incremented; the caller then gets the 500 response of the general
    handler, which logs the failure as an error, and the history line
    has already been written. *)
Theorem append_failure_reaches_caller `{Backend} (w w2 : World) (today : N)
    (fresh_uuid now_stamp : pystr) (daily_limit doc_id : Z) (question : pystr)
    (user_id count : Z) (c : pystr) (cs : list pystr) (indices : list Z) :
  count_today today user_id w = (inr count, w) ->
  count < daily_limit ->
  encodable question ->
  get_relevant_context question doc_id w = (inr (c :: cs, indices), w2) ->
  let k := (user_id, today) in
  let entry := entry_for user_id doc_id question (c :: cs) indices in
  let w0 := logged (EvLog INFO "answer_generated")
              (logged (EvLog INFO "retrieval_done") w2) in
  let ask := ask_question today fresh_uuid now_stamp daily_limit doc_id question user_id in
  let post := post_ask today fresh_uuid now_stamp daily_limit doc_id question user_id in
  (forall e w3,
      append_history_entry today fresh_uuid now_stamp user_id entry w0 = (inl e, w3) ->
      ask w = (inl e, w3))
  /\ (forall entry_id w3,
        append_history_entry today fresh_uuid now_stamp user_id entry w0
          = (inr entry_id, w3) ->
        ask w = (inr (answer_response question (c :: cs)), w3))
  /\ (forall written,
        utf8_encode (record_line (with_id_and_timestamp fresh_uuid now_stamp entry))
          = Some written ->
        match counter_parse (default [] (usage_files w !! k))
              ≫= (fun stored => py_str_limited (stored + 1)) with
        | Some _ => exists w3, ask w = (inr (answer_response question (c :: cs)), w3)
        | None =>
            exists e w3,
              ask w = (inl e, w3)
              /\ (e = UnicodeDecodeError \/ exists msg, e = ValueError msg)
              /\ post w = (inr (api_response PNull (lit "Internal server error") 500),
                           logged (EvLog ERROR "unhandled_exception") w3)
              /\ history_files w3 !! k
                 = Some (default [] (history_files w !! k) ++ written)
        end).
Proof.
  intros Hcount Hc Henc Hg k entry w0 ask post. subst ask post.
  unfold post_ask, try_except.
  rewrite (ask_passed _ _ _ _ _ _ _ _ _ Hcount Hc), Hg. fold entry. fold w0.
  unfold encodable in Henc.
  destruct (utf8_encode question) as [qb|]; [clear Henc|congruence].
  split; [|split].
  - intros e w3 ->. reflexivity.
  - intros entry_id w3 ->. reflexivity.
  - intros written Hw.
    destruct (append_spec w0 today fresh_uuid now_stamp user_id entry)
      as (w3 & res & Happ & _ & Hcase).
    apply context_stores in Hg as (Hh & Hu & _).
    destruct (after_logs w2 w0 eq_refl) as (Hh0 & Hu0 & _).
    unfold record_line in Hw. rewrite Hw in Hcase.
    rewrite Hh0, Hu0, Hh, Hu in Hcase. fold k in Hcase.
    destruct Hcase as (Hh3 & _ & Hcase).
    rewrite Happ.
    destruct (counter_parse (default [] (usage_files w !! k))) as [stored|];
      cbn [mbind option_bind].
    + destruct (py_str_limited (stored + 1)).
      * destruct Hcase as [[entry_id ->] _]. now exists w3.
      * destruct Hcase as [[msg ->] _]. exists (ValueError msg), w3.
        split; [reflexivity|]. split; [eauto|]. split; [reflexivity|].
        rewrite Hh3. apply lookup_insert_eq.
    + destruct Hcase as [[-> | [msg ->]] _].
      * exists UnicodeDecodeError, w3.
        split; [reflexivity|]. split; [eauto|]. split; [reflexivity|].
        rewrite Hh3. apply lookup_insert_eq.
      * exists (ValueError msg), w3.
        split; [reflexivity|]. split; [eauto|]. split; [reflexivity|].
        rewrite Hh3. apply lookup_insert_eq.
Qed.

(** The counter file of the day holds ["abc"]. *)
Lemma corrupt_counter_call_raises :
  exists msg w3,
    ask_question Demo.day1 (lit "u-1") (lit "2021-07-30T10:00:00Z") 20 1
      (lit "Hello?") Demo.alice Demo.corrupt_counter_world = (inl (ValueError msg), w3).
Proof.
  pose proof (append_failure_reaches_caller Demo.corrupt_counter_world
                (snd (get_relevant_context (lit "Hello?") 1 Demo.corrupt_counter_world))
                Demo.day1 (lit "u-1") (lit "2021-07-30T10:00:00Z") 20 1
                (lit "Hello?") Demo.alice 0 (lit "Chunk one")
                [lit "Chunk two"; lit "Chunk three"] [0; 1; 2]) as Hq.
  assert (Hcount : count_today Demo.day1 Demo.alice Demo.corrupt_counter_world
                   = (inr 0, Demo.corrupt_counter_world)) by (vm_compute; reflexivity).
  assert (Hc : 0 < 20) by lia.
  assert (Henc : encodable (lit "Hello?")) by (vm_compute; discriminate).
  assert (Hg : get_relevant_context (lit "Hello?") 1 Demo.corrupt_counter_world
               = (inr ([lit "Chunk one"; lit "Chunk two"; lit "Chunk three"], [0; 1; 2]),
                  snd (get_relevant_context (lit "Hello?") 1 Demo.corrupt_counter_world)))
    by (vm_compute; reflexivity).
  destruct (Hq Hcount Hc Henc Hg) as (Hfail & _ & _).
  eexists _, _. apply Hfail. vm_compute. reflexivity.
Defined.

(** C4, counterexample.  Retrieval gives the three chunks, the counter
    file cannot be read as a number, and the caller gets a 500 response
    instead of the answer. *)
Lemma corrupt_counter_answer_withheld :
  fst (get_relevant_context (lit "Hello?") 1 Demo.corrupt_counter_world)
    = inr (Demo.three_chunks, [0; 1; 2])
  /\ fst (ask_question Demo.day1 (lit "u-1") (lit "2021-07-30T10:00:00Z") 20 1
            (lit "Hello?") Demo.alice Demo.corrupt_counter_world)
     = inl (ValueError "invalid literal for int() with base 10")
  /\ fst (post_ask Demo.day1 (lit "u-1") (lit "2021-07-30T10:00:00Z") 20 1
            (lit "Hello?") Demo.alice Demo.corrupt_counter_world)
     = inr (api_response PNull (lit "Internal server error") 500)
  /\ succeeded (fst (post_ask Demo.day1 (lit "u-1") (lit "2021-07-30T10:00:00Z") 20 1
                       (lit "Hello?") Demo.alice Demo.corrupt_counter_world)) = false.
Proof. repeat split; vm_compute; reflexivity. Qed.

(** C6.  A call made when the day's count has reached the limit raises
    the 429 exception at once: the only thing added to the trace is the
    warning, so the embedding provider is not called, the index is
    neither looked for nor read nor searched, and the chunk file is not
    read; and no file, dictionary or record has changed. *)
Theorem blocked_ask_does_no_retrieval `{Backend} (w : World) (today : N)
    (fresh_uuid now_stamp : pystr) (daily_limit doc_id : Z) (question : pystr)
    (user_id count : Z) :
  count_today today user_id w = (inr count, w) ->
  daily_limit <= count ->
  let r := ask_question today fresh_uuid now_stamp daily_limit doc_id question user_id w in
  fst r = QuotaExceeded daily_limit
  /\ trace (snd r) = trace w ++ [EvLog WARNING "daily_limit_exceeded"]
  /\ Forall (fun e => retrieval_event e = false) (drop (length (trace w)) (trace (snd r)))
  /\ same_stores w (snd r).
Proof.
  intros Hcount Hlim r. subst r.
  rewrite (ask_blocked _ _ _ _ _ _ _ _ _ Hcount Hlim). cbn [fst snd].
  split; [reflexivity|]. split; [reflexivity|]. split.
  - rewrite trace_logged, drop_app_length. now repeat constructor.
  - apply same_stores_logged.
Qed.

(** The counter file says 20, the limit is 20. *)
Lemma exhausted_call_only_warns :
  trace (snd (ask_question Demo.day1 (lit "u-1") (lit "2021-07-30T10:00:00Z") 20 1
                (lit "Hello?") Demo.alice Demo.exhausted_world))
  = trace Demo.exhausted_world ++ [EvLog WARNING "daily_limit_exceeded"].
Proof.
  refine (proj1 (proj2
    (blocked_ask_does_no_retrieval Demo.exhausted_world Demo.day1 (lit "u-1")
       (lit "2021-07-30T10:00:00Z") 20 1 (lit "Hello?") Demo.alice 20 _ _))).
  - vm_compute. reflexivity.
  - lia.
Defined.

End RagClaims.

Module FlockFacts.
Import PyText Props PyTextFacts CodecFacts QuotaFacts Flock.

(** One process on its own does what [Ledger._inc_usage] does: the file
    ends up holding the count it read plus one. *)
Lemma solo_increment (f : option bytes) (count : Z) (digits : pystr) :
  counter_parse (default [] f) = Some count ->
  py_str_limited (count + 1) = Some digits ->
  run [0; 0; 0; 0; 0; 0; 0]%nat (initial 1 f)
  = Some {| procs := [Done]; file := Some digits; lock := None |}.
Proof.
  intros Hc Hd. unfold initial. cbn [replicate run].
  do 2 (unfold step at 1;
        cbn [procs set_pc file lock lookup list_lookup insert list_insert]).
  unfold step at 1.
  cbn [procs set_pc file lock lookup list_lookup insert list_insert from_option id].
  unfold counter_parse in Hc. rewrite Hc.
  unfold step at 1;
    cbn [procs set_pc file lock lookup list_lookup insert list_insert].
  unfold step at 1;
    cbn [procs set_pc file lock lookup list_lookup insert list_insert].
  rewrite Hd. cbn [mbind option_bind].
  rewrite (utf8_encode_ascii digits)
    by (rewrite (py_str_limited_some _ _ Hd); apply ascii_py_str).
  do 2 (unfold step at 1;
        cbn [procs set_pc file lock lookup list_lookup insert list_insert]).
  reflexivity.
Qed.

(** C9, the failing run.  Two processes increment a counter that does
    not exist yet.  Run one after the other they leave 2 in the file.
    When the second takes the lock between the first one's unlock and
    the first one's close, both finish and the file holds 1. *)
Lemma concurrent_increments_lose_update :
  (stored_count <$> run one_after_the_other (initial 2 None)) = Some 2
  /\ run overlapping (initial 2 None)
     = Some {| procs := [Done; Done]; file := Some (py_str 1); lock := None |}
  /\ (all_done <$> run overlapping (initial 2 None)) = Some true
  /\ (stored_count <$> run overlapping (initial 2 None)) = Some 1.
Proof. repeat split; vm_compute; reflexivity. Qed.

End FlockFacts.
